(** * errchain: the error-prefix checker of go-check-err-chains

    A shallow embedding of [errchain/errtext.go]: the prefix recommender
    [errorPrefixes], the prefix parser [parsePrefix], the matcher
    [location.match], and the walker [handleFuncDecl] / [handleFuncBody].

    Go strings are byte strings and are modelled by [string] (a list of
    8-bit [ascii] characters).  Go's [int] results are [Z]; slice bounds are
    [nat] once they are known to be non-negative.  A run-time panic (a nil
    dereference, or the [panic] calls of the debug build) is the [Panic]
    outcome of the [run] type.

    What the checker calls in Go's standard library is modelled from the
    library's sources ([strings], [unicode/utf8], [go/token]); the Unicode
    tables for the runes from 128 up, [fmt.Sprintf], [strconv.Quote] and
    [code.CallName] are variables of the section [errchain]. *)

From Stdlib Require Import ZArith List Bool Lia Ascii String.
Import ListNotations.

Set Warnings "-register-all".

Open Scope Z_scope.
Open Scope list_scope.
Open Scope string_scope.

(** ** Outcomes of code that may panic *)

Inductive run (A : Type) : Type :=
| Done (a : A)
| Panic.

Arguments Done {A} a.
Arguments Panic {A}.

Definition bind {A B : Type} (m : run A) (k : A -> run B) : run B :=
  match m with
  | Done a => k a
  | Panic => Panic
  end.

Notation "x <- m ;; k" := (bind m (fun x => k))
  (at level 61, m at next level, right associativity).

(** ** The parts of Go's [strings] package the checker calls *)

Module strings.

(** [s[:n]] for [n <= len(s)]. *)
Fixpoint sliceTo (n : nat) (s : string) : string :=
  match n, s with
  | S n', String c t => String c (sliceTo n' t)
  | _, _ => ""
  end.

(** [s[n:]] for [n <= len(s)]. *)
Fixpoint sliceFrom (n : nat) (s : string) : string :=
  match n, s with
  | S n', String _ t => sliceFrom n' t
  | _, _ => s
  end.

(** [len(s) >= len(prefix) && s[:len(prefix)] == prefix] *)
Definition HasPrefix (s prefix : string) : bool :=
  (length prefix <=? length s)%nat && (sliceTo (length prefix) s =? prefix).

(** [len(s) >= len(suffix) && s[len(s)-len(suffix):] == suffix] *)
Definition HasSuffix (s suffix : string) : bool :=
  (length suffix <=? length s)%nat &&
  (sliceFrom (length s - length suffix) s =? suffix).

(** The index of the first instance of [substr] in [s], or -1. *)
Fixpoint Index (s substr : string) : Z :=
  if HasPrefix s substr then 0%Z
  else match s with
       | "" => (-1)%Z
       | String _ t => let i := Index t substr in
                       if (i <? 0)%Z then -1 else (i + 1)%Z
       end.

(** The loop of [genSplit]: at most [n] cuts, the rest of [s] is the last
    piece. *)
Fixpoint splitLoop (n : nat) (s sep : string) : list string :=
  match n with
  | O => [s]
  | S n' =>
      let m := Index s sep in
      if (m <? 0)%Z then [s]
      else sliceTo (Z.to_nat m) s
             :: splitLoop n' (sliceFrom (Z.to_nat m + length sep) s) sep
  end.

(** [SplitN(s, sep, n)] for a non-empty [sep] and [n > 0], the only way the
    checker calls it: [n] is capped at [len(s)+1], then [n-1] cuts. *)
Definition SplitN (s sep : string) (n : nat) : list string :=
  splitLoop (Nat.min n (length s + 1) - 1) s sep.

End strings.

(** ** UTF-8 decoding ([unicode/utf8]) *)

Module utf8.

Local Open Scope Z_scope.

Definition RuneError : Z := 65533.

Definition byteZ (c : ascii) : Z := Z.of_N (N_of_ascii c).

(** The [first] table for the lead bytes of multi-byte sequences: the size
    of the sequence and the range accepted for its second byte.  [None] is
    the table's [xx] (an invalid lead byte). *)
Definition first (s0 : Z) : option (nat * Z * Z) :=
  if s0 <? 194 then None
  else if s0 <? 224 then Some (2%nat, 128, 191)
  else if s0 =? 224 then Some (3%nat, 160, 191)
  else if s0 <? 237 then Some (3%nat, 128, 191)
  else if s0 =? 237 then Some (3%nat, 128, 159)
  else if s0 <? 240 then Some (3%nat, 128, 191)
  else if s0 =? 240 then Some (4%nat, 144, 191)
  else if s0 <? 244 then Some (4%nat, 128, 191)
  else if s0 =? 244 then Some (4%nat, 128, 143)
  else None.

Definition isCont (b : Z) : bool := (128 <=? b) && (b <=? 191).

(** [DecodeRuneInString]: the first rune of [s] and its width in bytes. *)
Definition DecodeRuneInString (s : string) : Z * nat :=
  match s with
  | "" => (RuneError, 0%nat)
  | String c0 t =>
      let s0 := byteZ c0 in
      if s0 <? 128 then (s0, 1%nat)
      else
        match first s0 with
        | None => (RuneError, 1%nat)
        | Some (sz, lo, hi) =>
            if (length s <? sz)%nat then (RuneError, 1%nat)
            else
              match t with
              | "" => (RuneError, 1%nat)
              | String c1 t1 =>
                  let s1 := byteZ c1 in
                  if (s1 <? lo) || (hi <? s1) then (RuneError, 1%nat)
                  else if (sz <=? 2)%nat then
                    (Z.lor (Z.shiftl (Z.land s0 31) 6) (Z.land s1 63), 2%nat)
                  else
                    match t1 with
                    | "" => (RuneError, 1%nat)
                    | String c2 t2 =>
                        let s2 := byteZ c2 in
                        if negb (isCont s2) then (RuneError, 1%nat)
                        else if (sz <=? 3)%nat then
                          (Z.lor (Z.lor (Z.shiftl (Z.land s0 15) 12)
                                        (Z.shiftl (Z.land s1 63) 6))
                                 (Z.land s2 63), 3%nat)
                        else
                          match t2 with
                          | "" => (RuneError, 1%nat)
                          | String c3 _ =>
                              let s3 := byteZ c3 in
                              if negb (isCont s3) then (RuneError, 1%nat)
                              else
                                (Z.lor (Z.lor (Z.lor
                                   (Z.shiftl (Z.land s0 7) 18)
                                   (Z.shiftl (Z.land s1 63) 12))
                                   (Z.shiftl (Z.land s2 63) 6))
                                   (Z.land s3 63), 4%nat)
                          end
                    end
              end
        end
  end.

(** [for i, c := range s]: the byte index and the rune of every iteration.
    [skip] counts the bytes of the current rune still to be stepped over. *)
Fixpoint rangeFrom (i skip : nat) (s : string) : list (nat * Z) :=
  match s with
  | "" => []
  | String _ t =>
      match skip with
      | S k => rangeFrom (S i) k t
      | O => let '(r, sz) := DecodeRuneInString s in
             (i, r) :: rangeFrom (S i) (sz - 1) t
      end
  end.

Definition range (s : string) : list (nat * Z) := rangeFrom 0 0 s.

End utf8.

(** ** The [go/types] and [go/ast] data the checker reads *)

Module types.

(** [pkg.Name()] and [pkg.Path()] of a [*types.Package]. *)
Record Package : Type := { Name : string; Path : string }.

End types.

Module ast.

(** Type expressions, as far as a receiver or a result type is told apart
    by the checker's type switches. *)
Inductive Expr : Type :=
| Ident (Name : string)
| StarExpr (X : Expr)
| SelectorExpr (X : Expr) (Sel : string)
| IndexExpr (X : Expr) (Index : Expr)
| ParenExpr (X : Expr)
| ArrayType (Elt : Expr)
| BadExpr.

Record Field : Type := { Names : list string; Typ : Expr }.

(** A [*FieldList] may be nil; its [List] is the list. *)
Definition FieldList : Type := option (list Field).

Record FuncType : Type := { Params : FieldList; Results : FieldList }.

(** The nodes of a function body: call expressions, and every other node
    with the nodes below it, in the order [ast.Walk] visits them. *)
Inductive Node : Type :=
| CallExpr (Pos : Z) (Fun : Node) (Args : list Node)
| Other (Pos : Z) (children : list Node).

(** [Name] is the [Name] of the declaration's [*Ident], [None] for nil. *)
Record FuncDecl : Type := {
  Recv : FieldList;
  Name : option string;
  Type_ : option FuncType;
  Body : option Node
}.

End ast.

(** ** errchain: locations, mismatch kinds, recommender and matcher *)

Record location : Type := {
  pkg : string;
  recv : string;
  fn : string;
  isRecvPtr : bool
}.

(** The zero value of [location]. *)
Definition noLocation : location :=
  {| pkg := ""; recv := ""; fn := ""; isRecvPtr := false |}.

Inductive errorKind : Type :=
| errNoPrefix
| errPackageMismatch
| errPrefixDuplicate
| errInvalidSyntax
| errFuncNotFound
| errMethodNotFound
| errRecieverNotFound
| errNoPointer.

(** [errorKind] is a string type in the source; [Error] is that string. *)
Definition Error (k : errorKind) : string :=
  match k with
  | errNoPrefix => "no prefix found"
  | errPackageMismatch => "package name mismatch"
  | errPrefixDuplicate => "prefix duplicate"
  | errInvalidSyntax => "syntax is wrong"
  | errFuncNotFound => "neither func nor struct has been found"
  | errMethodNotFound => "method not found"
  | errRecieverNotFound => "reciever not found"
  | errNoPointer => "reciever has no pointer"
  end.

Record prefixError : Type := {
  errType : errorKind;
  got : string;
  expect : string;
  parsedPrefix : location
}.

(** [&prefixError{errType: k}]: the other fields are zero values. *)
Definition prefixErrorOf (k : errorKind) : prefixError :=
  {| errType := k; got := ""; expect := ""; parsedPrefix := noLocation |}.

(** The package variable [debug] is the empty string unless a linker flag
    overrides it; the [fmt.Printf] of the debug build is not modelled. *)
Definition debug : string := "".

Definition isDebug : bool := negb (debug =? "").

(** [errorPrefixes]; a nil result is the empty list.  [fmt.Sprintf] with
    [%s] verbs and string arguments is concatenation. *)
Definition errorPrefixes (p : types.Package) (decl : ast.FuncDecl)
  : list string :=
  match ast.Name decl with
  | None => []
  | Some name =>
      let prefixes := [types.Name p ++ ": "] in
      match ast.Recv decl with
      | None | Some [] =>
          let funcPref := types.Name p ++ "." ++ name ++ ": " in
          (prefixes ++ [funcPref])%list
      | Some (f0 :: _) =>
          match ast.Typ f0 with
          | ast.StarExpr (ast.Ident ident) =>
              let pref1 := types.Name p ++ "." ++ ident ++ "." ++ name ++ ": " in
              let pref2 :=
                types.Name p ++ ".(*" ++ ident ++ ")." ++ name ++ ": " in
              let pref3 := types.Name p ++ "." ++ ident ++ ": " in
              (prefixes ++ [pref1; pref2; pref3])%list
          | ast.StarExpr _ => []
          | ast.Ident rname =>
              let pref1 := types.Name p ++ "." ++ rname ++ "." ++ name ++ ": " in
              let pref2 := types.Name p ++ "." ++ rname ++ ": " in
              (prefixes ++ [pref1; pref2])%list
          | _ => []
          end
      end
  end.

(** [isReturnsError]: the last declared result is the identifier [error];
    [list[len(list)-1]] is the head of the reversed list. *)
Definition isReturnsError (funcDecl : ast.FuncDecl) : bool :=
  match ast.Type_ funcDecl with
  | None => false
  | Some ft =>
      match ast.Results ft with
      | None => false
      | Some list =>
          match rev list with
          | [] => false
          | lastField :: _ =>
              match ast.Typ lastField with
              | ast.Ident name => name =? "error"
              | _ => false
              end
          end
      end
  end.

(** [recvString]: the receiver's type name and whether it is a pointer. *)
Definition recvString (decl : ast.FuncDecl) : string * bool :=
  match ast.Recv decl with
  | None | Some [] => ("", false)
  | Some (f0 :: _) =>
      let '(recvType, isPointer) :=
        match ast.Typ f0 with
        | ast.StarExpr x => (x, true)
        | t => (t, false)
        end in
      match recvType with
      | ast.Ident r => (r, isPointer)
      | _ => ("", false)
      end
  end.

Definition mismatch (k : errorKind) (g e : string) (loc : location)
  : run (option prefixError) :=
  Done (Some {| errType := k; got := g; expect := e; parsedPrefix := loc |}).

(** [location.match] ([match] is a keyword here).  [fn.Name.Name] panics
    on a nil [Name]; [None] is the nil [*prefixError], a successful match. *)
Definition match_ (loc : location) (p : types.Package) (decl : ast.FuncDecl)
  : run (option prefixError) :=
  if pkg loc =? "" then
    mismatch errNoPrefix (pkg loc) (types.Name p) loc
  else if negb (strings.HasSuffix (types.Path p) (pkg loc)) then
    mismatch errPackageMismatch (pkg loc) (types.Name p) loc
  else
    let '(recieverName, isRecieverPointer) := recvString decl in
    match ast.Name decl with
    | None => Panic
    | Some functionName =>
        if (recv loc =? "") && (fn loc =? "") then Done None
        else if (recv loc =? "") && negb (fn loc =? "") then
          if fn loc =? recieverName then Done None
          else if fn loc =? functionName then Done None
          else mismatch errFuncNotFound (fn loc)
                        (functionName ++ " or " ++ recieverName) loc
        else if negb (recv loc =? "") && negb (fn loc =? "") then
          if (recv loc =? recieverName) && negb (fn loc =? functionName) then
            mismatch errMethodNotFound (fn loc) functionName loc
          else if negb (recv loc =? recieverName) && (fn loc =? functionName)
          then mismatch errRecieverNotFound (recv loc) recieverName loc
          else if negb (recv loc =? recieverName)
                  && negb (fn loc =? functionName)
          then mismatch errMethodNotFound (recv loc ++ "." ++ fn loc)
                        (recieverName ++ "." ++ functionName) loc
          else if (recv loc =? recieverName) && (fn loc =? functionName) then
            if isRecvPtr loc && negb isRecieverPointer then
              mismatch errNoPointer ("(*" ++ recv loc ++ ")") recieverName loc
            else Done None
          else if isDebug then Panic else Done None
        else if isDebug then Panic else Done None
    end.

(** ** Constants and the analysis pass *)

(** What [constant.Val] returns for an expression with a constant value. *)
Inductive Constant : Type :=
| StringVal (s : string)
| IntVal (z : Z)
| BoolVal (b : bool)
| OtherVal.

(** An [*analysis.Pass]: the package under analysis and, for every
    expression, [pass.TypesInfo.Types[expr].Value] ([None] for nil). *)
Record Pass : Type := {
  Pkg : types.Package;
  TypesInfoValue : ast.Node -> option Constant
}.

Record printableExpr : Type := { pass : Pass; expr : ast.Node }.

(** What [pass.Reportf] receives. *)
Record Diagnostic : Type := { Pos : Z; Message : string }.

Definition diagnosticMessage : string :=
  "Error message must point to the place where it had happened".

Definition constantValue (ps : Pass) (e : ast.Node) : option Constant :=
  TypesInfoValue ps e.

Definition constantValueString (ps : Pass) (e : ast.Node) : option string :=
  match constantValue ps e with
  | Some (StringVal str) => Some str
  | _ => None
  end.

(** [strings.Builder] writes separated by [", "]. *)
Fixpoint joinComma (l : list string) : string :=
  match l with
  | [] => ""
  | [x] => x
  | x :: r => x ++ ", " ++ joinComma r
  end.

(** The 25 keywords of [go/token]. *)
Definition keywords : list string :=
  ["break"; "case"; "chan"; "const"; "continue"; "default"; "defer"; "else";
   "fallthrough"; "for"; "func"; "go"; "goto"; "if"; "import"; "interface";
   "map"; "package"; "range"; "return"; "select"; "struct"; "switch"; "type";
   "var"].

Definition IsKeyword (name : string) : bool :=
  existsb (fun k => k =? name) keywords.

(** ** Notions the statements below are written with *)

(** The next [k] bytes of [s], as far as it goes, are 128 or more. *)
Fixpoint highBytes (k : nat) (s : string) : Prop :=
  match k, s with
  | S k', String c t => (128 <= utf8.byteZ c)%Z /\ highBytes k' t
  | _, _ => True
  end.

(** A byte an identifier can hold: an ASCII letter, digit or underscore,
    or a byte of a rune from 128 up. *)
Definition identByte (c : ascii) : bool :=
  let b := utf8.byteZ c in
  (128 <=? b)%Z || ((65 <=? b)%Z && (b <=? 90)%Z)
  || ((97 <=? b)%Z && (b <=? 122)%Z) || ((48 <=? b)%Z && (b <=? 57)%Z)
  || (b =? 95)%Z.

(** Every byte of [s] satisfies [f]. *)
Fixpoint allBytes (f : ascii -> bool) (s : string) : bool :=
  match s with
  | "" => true
  | String c t => f c && allBytes f t
  end.

(** A byte that is neither a dot nor a colon. *)
Definition plainByte (c : ascii) : bool :=
  negb (c =? ".")%char && negb (c =? ":")%char.

(** The round trip of one recommended prefix: it parses without an error
    into a location that the matcher accepts for the declaration. *)
Definition roundTrips (parse : string -> location * option errorKind)
  (p : types.Package) (decl : ast.FuncDecl) (prefix : string) : Prop :=
  exists loc, parse prefix = (loc, None) /\ match_ loc p decl = Done None.

(** [sub] occurs in [s]. *)
Definition contains (s sub : string) : Prop :=
  exists a b, s = a ++ sub ++ b.

(** The pieces of [s] between its dots. *)
Fixpoint dotComponents (s : string) : list string :=
  match s with
  | "" => [""]
  | String c t =>
      if (c =? ".")%char then "" :: dotComponents t
      else match dotComponents t with
           | h :: r => String c h :: r
           | [] => [String c ""]
           end
  end.

(** A location read off a prefix that carries no pointer marker. *)
Definition mkLocation (p r f : string) : location :=
  {| pkg := p; recv := r; fn := f; isRecvPtr := false |}.

(** The result types a declaration lists, in order; none when the
    declaration has no [Type] or no [Results]. *)
Definition declaredResults (decl : ast.FuncDecl) : list ast.Expr :=
  match ast.Type_ decl with
  | Some ft =>
      match ast.Results ft with
      | Some l => map ast.Typ l
      | None => []
      end
  | None => []
  end.

(** ** The declarations of [testdata/aaa/aaa.go] *)

Module aaa.

Definition pkg : types.Package := {| types.Name := "aaa"; types.Path := "aaa" |}.

Definition unnamed (t : ast.Expr) : ast.Field :=
  {| ast.Names := []; ast.Typ := t |}.

Definition named (n : string) (t : ast.Expr) : ast.Field :=
  {| ast.Names := [n]; ast.Typ := t |}.

Definition results (l : list ast.Expr) : option ast.FuncType :=
  Some {| ast.Params := Some []; ast.Results := Some (map unnamed l) |}.

(** A string literal at position [pos]; its value is in the [Pass]. *)
Definition lit (pos : Z) : ast.Node := ast.Other pos [].

(** [return errors.New(<literal>)], the call at [pos]. *)
Definition returnNew (pos : Z) : ast.Node :=
  ast.Other (pos - 7) [ast.CallExpr pos (ast.Other pos []) [lit (pos + 11)]].

(** [func (x *Struct) Method(input string) (int, error)] *)
Definition Method : ast.FuncDecl :=
  {| ast.Recv := Some [named "x" (ast.StarExpr (ast.Ident "Struct"))];
     ast.Name := Some "Method";
     ast.Type_ := results [ast.Ident "int"; ast.Ident "error"];
     ast.Body := Some (ast.Other 100 [returnNew 120]) |}.

(** [func (x Struct) MethodWithoutPointer() error] *)
Definition MethodWithoutPointer : ast.FuncDecl :=
  {| ast.Recv := Some [named "x" (ast.Ident "Struct")];
     ast.Name := Some "MethodWithoutPointer";
     ast.Type_ := results [ast.Ident "error"];
     ast.Body := Some (ast.Other 200 [returnNew 220]) |}.

(** [func (x *Struct) method() (string, error)] *)
Definition method : ast.FuncDecl :=
  {| ast.Recv := Some [named "x" (ast.StarExpr (ast.Ident "Struct"))];
     ast.Name := Some "method";
     ast.Type_ := results [ast.Ident "string"; ast.Ident "error"];
     ast.Body := Some (ast.Other 300 [returnNew 320]) |}.

(** [func privateFunction() error] *)
Definition privateFunction : ast.FuncDecl :=
  {| ast.Recv := None;
     ast.Name := Some "privateFunction";
     ast.Type_ := results [ast.Ident "error"];
     ast.Body := Some (ast.Other 400 [returnNew 420]) |}.

(** [func PublicFunction() error] *)
Definition PublicFunction : ast.FuncDecl :=
  {| ast.Recv := None;
     ast.Name := Some "PublicFunction";
     ast.Type_ := results [ast.Ident "error"];
     ast.Body := Some (ast.Other 500 [returnNew 520]) |}.

(** [func PublicFunction3() string] *)
Definition PublicFunction3 : ast.FuncDecl :=
  {| ast.Recv := None;
     ast.Name := Some "PublicFunction3";
     ast.Type_ := results [ast.Ident "string"];
     ast.Body := Some (ast.Other 600 [returnNew 620]) |}.

(** A pass over the package in which every literal is the constant
    [msg]. *)
Definition passWith (msg : string) : Pass :=
  {| Pkg := pkg;
     TypesInfoValue := fun n =>
       match n with
       | ast.Other _ [] => Some (StringVal msg)
       | _ => None
       end |}.

(** Every literal is ["errrrrr"], a message with no prefix. *)
Definition thePass : Pass := passWith "errrrrr".

(** A package whose name does not end its import path, and a function
    declared in it. *)
Definition yaml : types.Package :=
  {| types.Name := "yaml"; types.Path := "gopkg.in/yaml.v2" |}.

(** [func Marshal(in interface{}) ([]byte, error)] *)
Definition Marshal : ast.FuncDecl :=
  {| ast.Recv := None;
     ast.Name := Some "Marshal";
     ast.Type_ := results [ast.ArrayType (ast.Ident "byte"); ast.Ident "error"];
     ast.Body := Some (ast.Other 700 [returnNew 720]) |}.

(** Every call of the fixtures is a call of [errors.New]. *)
Definition callName (_ : Pass) (n : ast.Node) : string :=
  match n with
  | ast.CallExpr _ _ _ => "errors.New"
  | _ => ""
  end.

(** With no arguments after the format, [fmt.Sprintf] of a format without
    verbs is the format. *)
Definition sprintf (format : string) (_ : list printableExpr) : string :=
  format.

(** [strconv.Quote] of a string of letters, digits and punctuation other
    than the quote and the backslash: the string between two quotes. *)
Definition quote (s : string) : string :=
  String (ascii_of_nat 34) (s ++ String (ascii_of_nat 34) "").

(** Tables that hold no rune: enough for ASCII text, whose runes are all
    below 128. *)
Definition noRune : Z -> bool := fun _ => false.

End aaa.

Section errchain.

(** The classes of the runes from 128 up are read from the tables of Go's
    [unicode] package, which are not part of this repository. *)
Variables unicodeLetter unicodeDigit unicodeUpper : Z -> bool.

(** What the checker calls outside this repository and the packages
    modelled above: [code.CallName], [fmt.Sprintf] over [printableExpr]
    arguments, and [strconv.Quote]. *)
Variable CallName : Pass -> ast.Node -> string.
Variable Sprintf : string -> list printableExpr -> string.
Variable Quote : string -> string.

Definition IsLetter (r : Z) : bool :=
  if (r <? 128)%Z
  then ((65 <=? r)%Z && (r <=? 90)%Z) || ((97 <=? r)%Z && (r <=? 122)%Z)
  else unicodeLetter r.

Definition IsDigit (r : Z) : bool :=
  if (r <? 128)%Z then (48 <=? r)%Z && (r <=? 57)%Z else unicodeDigit r.

Definition IsUpper (r : Z) : bool :=
  if (r <? 128)%Z then (65 <=? r)%Z && (r <=? 90)%Z else unicodeUpper r.

(** The body of the loop of [token.IsIdentifier]: [false] where the loop
    returns false. *)
Definition identRune (ic : nat * Z) : bool :=
  let '(i, c) := ic in
  negb (negb (IsLetter c) && negb (c =? 95)%Z
        && ((i =? 0)%nat || negb (IsDigit c))).

(** [token.IsIdentifier] *)
Definition IsIdentifier (name : string) : bool :=
  if (name =? "") || IsKeyword name then false
  else forallb identRune (utf8.range name).

(** [ast.IsExported] *)
Definition IsExported (name : string) : bool :=
  IsUpper (fst (utf8.DecodeRuneInString name)).

Definition sep : string := ": ".

(** Lines 372-388 of [parsePrefix]: the checks on the tokens of [loc]. *)
Definition checkTokens (loc : location) : location * option errorKind :=
  if negb (recv loc =? "") && negb (IsIdentifier (recv loc)) then
    (loc, Some errInvalidSyntax)
  else if negb (fn loc =? "") && negb (IsIdentifier (fn loc)) then
    (loc, Some errInvalidSyntax)
  else if strings.HasPrefix (recv loc) "(*" then
    let r := strings.sliceFrom 2 (recv loc) in
    if strings.HasSuffix r ")" then
      ({| pkg := pkg loc; recv := strings.sliceTo (length r - 1) r;
          fn := fn loc; isRecvPtr := true |}, None)
    else
      ({| pkg := pkg loc; recv := r; fn := fn loc;
          isRecvPtr := isRecvPtr loc |}, Some errInvalidSyntax)
  else (loc, None).

(** [parsePrefix]: the location and the error ([None] for nil).  [split[k]]
    is [nth k split ""]; [SplitN] never returns an empty slice. *)
Definition parsePrefix (errorMessage : string) : location * option errorKind :=
  let i := strings.Index errorMessage sep in
  if (i <? 0)%Z then (noLocation, Some errNoPrefix)
  else
    let split :=
      strings.SplitN (strings.sliceTo (Z.to_nat i) errorMessage) "." 4 in
    match List.length split with
    | 1%nat =>
        checkTokens {| pkg := nth 0 split ""; recv := ""; fn := "";
                       isRecvPtr := false |}
    | 2%nat =>
        checkTokens {| pkg := nth 0 split ""; recv := "";
                       fn := nth 1 split ""; isRecvPtr := false |}
    | 3%nat =>
        checkTokens {| pkg := nth 0 split ""; recv := nth 1 split "";
                       fn := nth 2 split ""; isRecvPtr := false |}
    | _ =>
        ({| pkg := nth 0 split ""; recv := nth 1 split "";
            fn := nth 2 split ""; isRecvPtr := false |},
         Some errInvalidSyntax)
    end.

Definition generatePrefixRecomendations (ps : Pass) (parentFunc : ast.FuncDecl)
  : string :=
  "Consider starting message with one of the following strings: "
  ++ joinComma (map Quote (errorPrefixes (Pkg ps) parentFunc)).

(** The closure [report] of [handleFuncBody], at the position of the call. *)
Definition report (ps : Pass) (parentFunc : ast.FuncDecl) (pos : Z)
  (err : prefixError) : Diagnostic :=
  let msg :=
    match errType err with
    | errNoPrefix =>
        diagnosticMessage ++ ": " ++ generatePrefixRecomendations ps parentFunc
    | k => diagnosticMessage ++ ": " ++ Error k
    end in
  {| Pos := pos; Message := msg |}.

(** Lines 157-196 of [handleFuncBody]: the [*prefixError] handed to
    [report] for the message text, [None] when nothing is reported. *)
Definition checkPrefix (p : types.Package) (parentFunc : ast.FuncDecl)
  (errorMessage : string) : run (option prefixError) :=
  let '(prefix, err) := parsePrefix errorMessage in
  match err with
  | Some errNoPrefix => Done (Some (prefixErrorOf errNoPrefix))
  | Some errInvalidSyntax =>
      r <- match_ prefix p parentFunc ;;
      match r with
      | None => Done (Some (prefixErrorOf errInvalidSyntax))
      | Some _ => Done (Some (prefixErrorOf errNoPrefix))
      end
  | Some _ => if isDebug then Panic else match_ prefix p parentFunc
  | None => match_ prefix p parentFunc
  end.

(** [handleFuncBody] on a non-nil node; on the nil node that ends every
    [ast.Inspect] level the type assertion fails and nothing happens. *)
Definition handleFuncBody (ps : Pass) (parentFunc : ast.FuncDecl)
  (node : ast.Node) : run (list Diagnostic) :=
  match node with
  | ast.CallExpr pos _ args =>
      match args with
      | [] => Done []
      | arg0 :: rest =>
          let callName := CallName ps node in
          if (callName =? "errors.New") || (callName =? "fmt.Errorf") then
            match constantValueString ps arg0 with
            | None => Done []
            | Some format =>
                let formatArgs :=
                  map (fun e => {| pass := ps; expr := e |}) rest in
                let errorMessage := Sprintf format formatArgs in
                r <- checkPrefix (Pkg ps) parentFunc errorMessage ;;
                match r with
                | Some err => Done [report ps parentFunc pos err]
                | None => Done []
                end
            end
          else Done []
      end
  | ast.Other _ _ => Done []
  end.

(** [ast.Inspect] with a function that always returns true: the node, then
    the nodes below it, depth first. *)
Fixpoint Inspect (f : ast.Node -> run (list Diagnostic)) (node : ast.Node)
  : run (list Diagnostic) :=
  let inspectAll :=
    fix inspectAll (l : list ast.Node) : run (list Diagnostic) :=
      match l with
      | [] => Done []
      | n :: r =>
          d <- Inspect f n ;;
          ds <- inspectAll r ;;
          Done (d ++ ds)%list
      end in
  d0 <- f node ;;
  match node with
  | ast.CallExpr _ fun_ args =>
      d1 <- Inspect f fun_ ;;
      d2 <- inspectAll args ;;
      Done (d0 ++ d1 ++ d2)%list
  | ast.Other _ children =>
      d1 <- inspectAll children ;;
      Done (d0 ++ d1)%list
  end.

(** [handleFuncDecl]: the diagnostics reported for one declaration. *)
Definition handleFuncDecl (ps : Pass) (funcDecl : ast.FuncDecl)
  : run (list Diagnostic) :=
  match ast.Name funcDecl, ast.Body funcDecl with
  | Some name, Some body =>
      if negb (IsExported name) || negb (isReturnsError funcDecl) then Done []
      else Inspect (handleFuncBody ps funcDecl) body
  | _, _ => Done []
  end.

(** A token passes the parser when it is absent (empty) or an identifier. *)
Definition tokenOK (t : string) : bool := (t =? "") || IsIdentifier t.

(** ** Facts about slicing, prefixes, suffixes and [Index] *)

Lemma append_assoc (a b c : string) : (a ++ b) ++ c = a ++ b ++ c.
Proof. induction a; simpl; congruence. Qed.

Lemma length_append (a b : string) :
  length (a ++ b) = (length a + length b)%nat.
Proof. induction a; simpl; congruence. Qed.

Lemma sliceTo_append (a b : string) : strings.sliceTo (length a) (a ++ b) = a.
Proof. induction a; simpl; [destruct b; reflexivity | congruence]. Qed.

Lemma sliceFrom_append (a b : string) :
  strings.sliceFrom (length a) (a ++ b) = b.
Proof. induction a; simpl; [destruct b; reflexivity | assumption]. Qed.

Lemma slice_split (n : nat) (s : string) :
  strings.sliceTo n s ++ strings.sliceFrom n s = s.
Proof.
  revert s; induction n as [|n IH]; intros [|c t]; simpl; try reflexivity.
  now rewrite IH.
Qed.

Lemma length_sliceTo (n : nat) (s : string) :
  (n <= length s)%nat -> length (strings.sliceTo n s) = n.
Proof.
  revert s; induction n as [|n IH]; intros [|c t]; simpl; intros H;
    try reflexivity; try lia.
  rewrite IH; lia.
Qed.

Lemma HasPrefix_iff (s p : string) :
  strings.HasPrefix s p = true <-> exists r, s = p ++ r.
Proof.
  unfold strings.HasPrefix. rewrite andb_true_iff, Nat.leb_le, String.eqb_eq.
  split.
  - intros [_ H]. exists (strings.sliceFrom (length p) s).
    rewrite <- H at 1. symmetry. apply slice_split.
  - intros [r ->]. rewrite length_append, sliceTo_append. split; [lia | easy].
Qed.

Lemma HasSuffix_iff (s x : string) :
  strings.HasSuffix s x = true <-> exists r, s = r ++ x.
Proof.
  unfold strings.HasSuffix. rewrite andb_true_iff, Nat.leb_le, String.eqb_eq.
  split.
  - intros [_ H]. exists (strings.sliceTo (length s - length x) s).
    rewrite <- H at 2. symmetry. apply slice_split.
  - intros [r ->]. rewrite length_append.
    replace (length r + length x - length x)%nat with (length r) by lia.
    rewrite sliceFrom_append. split; [lia | easy].
Qed.

(** [Index] is -1 or an offset into [s]. *)
Lemma Index_range (s sub : string) :
  strings.Index s sub = (-1)%Z
  \/ (0 <= strings.Index s sub <= Z.of_nat (length s))%Z.
Proof.
  induction s as [|c t IH]; simpl.
  - destruct (strings.HasPrefix "" sub); [right; simpl; lia | now left].
  - destruct (strings.HasPrefix (String c t) sub); [right; lia |].
    destruct IH as [-> | IH]; [now left |].
    destruct (Z.ltb_spec (strings.Index t sub) 0); [lia | right; lia].
Qed.

(** At a non-negative [Index] the text splits into what stands before the
    first instance, the instance, and the rest. *)
Lemma Index_found (s sub : string) :
  (0 <= strings.Index s sub)%Z ->
  exists b, s = strings.sliceTo (Z.to_nat (strings.Index s sub)) s ++ sub ++ b.
Proof.
  induction s as [|c t IH]; simpl.
  - destruct (strings.HasPrefix "" sub) eqn:E; [| lia].
    intros _. apply HasPrefix_iff in E. destruct E as [r E].
    exists r. simpl. exact E.
  - destruct (strings.HasPrefix (String c t) sub) eqn:E.
    + intros _. apply HasPrefix_iff in E. destruct E as [r E].
      exists r. simpl. exact E.
    + destruct (Z.ltb_spec (strings.Index t sub) 0) as [Hn | Hp]; [lia |].
      intros _. destruct (IH Hp) as [b Hb]. exists b.
      replace (Z.to_nat (strings.Index t sub + 1))
        with (S (Z.to_nat (strings.Index t sub))) by lia.
      simpl. now rewrite <- Hb.
Qed.

Lemma Index_absent (s sub : string) :
  ~ contains s sub -> strings.Index s sub = (-1)%Z.
Proof.
  intros H. destruct (Index_range s sub) as [E | E]; [exact E |].
  exfalso. apply H. destruct (Index_found s sub) as [b Hb]; [lia |].
  eexists; eexists; exact Hb.
Qed.

Lemma contains_cons (c : ascii) (t sub : string) :
  contains t sub -> contains (String c t) sub.
Proof. intros (a & b & ->). now exists (String c a), b. Qed.

Lemma Index_present (s sub : string) :
  contains s sub -> (0 <= strings.Index s sub)%Z.
Proof.
  induction s as [|c t IH]; intros (a & b & E); simpl.
  - destruct a; [| discriminate]. simpl in E.
    assert (H : strings.HasPrefix "" sub = true)
      by (apply HasPrefix_iff; now exists b).
    rewrite H; lia.
  - destruct (strings.HasPrefix (String c t) sub) eqn:P; [lia |].
    destruct a as [|c' a].
    + simpl in E. assert (H : strings.HasPrefix (String c t) sub = true)
        by (apply HasPrefix_iff; now exists b).
      congruence.
    + inversion E; subst. 
      assert (H : (0 <= strings.Index (a ++ sub ++ b) sub)%Z)
        by (apply IH; now exists a, b).
      destruct (Z.ltb_spec (strings.Index (a ++ sub ++ b) sub) 0); lia.
Qed.

(** The first [": "] of [text ++ ": " ++ rest] is the one written out when
    [text] has none. *)
Lemma Index_sep_first (text rest : string) :
  ~ contains text ": " ->
  strings.Index (text ++ ": " ++ rest) ": " = Z.of_nat (length text).
Proof.
  induction text as [|c t IH]; intros H; [reflexivity |].
  change (String c t ++ ": " ++ rest) with (String c (t ++ ": " ++ rest)).
  cbn [strings.Index].
  destruct (strings.HasPrefix (String c (t ++ ": " ++ rest)) ": ") eqn:P.
  - exfalso. apply HasPrefix_iff in P. destruct P as [r P].
    simpl in P. inversion P as [[Hc Ht]]. destruct t as [|c' t'].
    + simpl in Ht. discriminate.
    + simpl in Ht. inversion Ht; subst. apply H. now exists "", t'.
  - rewrite IH by (intros C; apply H; now apply contains_cons).
    destruct (Z.ltb_spec (Z.of_nat (length t)) 0); [lia |].
    cbn [length]. lia.
Qed.

(** [Index] is the least offset at which [sub] stands. *)
Lemma Index_least (s sub a b : string) :
  s = a ++ sub ++ b -> (strings.Index s sub <= Z.of_nat (length a))%Z.
Proof.
  revert a. induction s as [|c t IH]; intros a E; cbn [strings.Index].
  - destruct (strings.HasPrefix "" sub); lia.
  - destruct (strings.HasPrefix (String c t) sub) eqn:P; [lia |].
    destruct a as [|c' a'].
    + assert (H : strings.HasPrefix (String c t) sub = true)
        by (apply HasPrefix_iff; now exists b).
      congruence.
    + injection E as _ E. pose proof (IH a' E) as L.
      destruct (Z.ltb_spec (strings.Index t sub) 0); cbn [length]; lia.
Qed.

(** A message either has no separator or splits at its first one. *)
Lemma first_separator (msg : string) :
  ~ contains msg ": "
  \/ exists text rest, msg = text ++ ": " ++ rest /\ ~ contains text ": ".
Proof.
  destruct (Z.ltb_spec (strings.Index msg ": ") 0) as [L | G].
  - left. intros C. apply Index_present in C. lia.
  - right. destruct (Index_found msg ": " G) as [b E].
    destruct (Index_range msg ": ") as [R | R]; [lia |].
    exists (strings.sliceTo (Z.to_nat (strings.Index msg ": ")) msg), b.
    split; [exact E |]. intros (a & b' & C).
    assert (Hl : length (strings.sliceTo (Z.to_nat (strings.Index msg ": ")) msg)
                 = Z.to_nat (strings.Index msg ": "))
      by (apply length_sliceTo; lia).
    rewrite C in E. rewrite C, !length_append in Hl.
    rewrite !append_assoc in E.
    pose proof (Index_least msg ": " a _ E) as M. cbn [length] in Hl. lia.
Qed.

Lemma Index_dot_cons (c : ascii) (t : string) :
  strings.Index (String c t) "." =
  if (c =? ".")%char then 0%Z
  else let i := strings.Index t "." in if (i <? 0)%Z then (-1)%Z else (i + 1)%Z.
Proof.
  cbn [strings.Index]. unfold strings.HasPrefix at 1. simpl.
  destruct t; simpl; destruct (c =? ".")%char; reflexivity.
Qed.

(** [dotComponents] cuts where [Index] finds the dots. *)
Lemma dotComponents_Index (s : string) :
  ((strings.Index s "." < 0)%Z -> dotComponents s = [s]) /\
  ((0 <= strings.Index s ".")%Z ->
   dotComponents s =
   strings.sliceTo (Z.to_nat (strings.Index s ".")) s
     :: dotComponents
          (strings.sliceFrom (Z.to_nat (strings.Index s ".") + 1) s)).
Proof.
  induction s as [|c t [IHn IHp]].
  - split; [reflexivity | cbn; lia].
  - rewrite Index_dot_cons. cbn [dotComponents].
    destruct (c =? ".")%char.
    + split; [lia |]. intros _. cbn. now destruct t.
    + cbv zeta. destruct (Z.ltb_spec (strings.Index t ".") 0) as [Hn | Hp].
      * split; [| lia]. intros _. now rewrite IHn.
      * split; [lia |]. intros _. rewrite (IHp Hp).
        replace (Z.to_nat (strings.Index t "." + 1))
          with (S (Z.to_nat (strings.Index t "."))) by lia.
        reflexivity.
Qed.

Lemma dotComponents_length (s : string) :
  (1 <= List.length (dotComponents s) <= length s + 1)%nat.
Proof.
  induction s as [|c t IH]; cbn [dotComponents]; [cbn; lia |].
  destruct (c =? ".")%char; [cbn [List.length length]; lia |].
  destruct (dotComponents t); cbn [List.length length] in *; lia.
Qed.

(** [splitLoop] with [n] cuts returns the dot components when there are at
    most [n+1] of them, and otherwise the first [n] and one more piece. *)
Lemma splitLoop_dot (n : nat) : forall s : string,
  ((List.length (dotComponents s) <= S n)%nat ->
   strings.splitLoop n s "." = dotComponents s) /\
  ((S n < List.length (dotComponents s))%nat ->
   exists last, strings.splitLoop n s "." =
                (firstn n (dotComponents s) ++ [last])%list).
Proof.
  induction n as [|n IH]; intros s;
    destruct (dotComponents_Index s) as [Hn Hp];
    pose proof (dotComponents_length s) as Hl; cbn [strings.splitLoop].
  - split.
    + intros H. destruct (Z.ltb_spec (strings.Index s ".") 0) as [L | G].
      * now rewrite Hn.
      * rewrite (Hp G) in H. cbn [List.length] in H.
        pose proof (dotComponents_length
          (strings.sliceFrom (Z.to_nat (strings.Index s ".") + 1) s)). lia.
    + intros _. now exists s.
  - cbv zeta. destruct (Z.ltb_spec (strings.Index s ".") 0) as [L | G].
    + rewrite (Hn L). split; [reflexivity | cbn; lia].
    + rewrite (Hp G). cbn [length Nat.add List.length].
      destruct (IH (strings.sliceFrom (Z.to_nat (strings.Index s ".") + 1) s))
        as [IH1 IH2].
      replace (Z.to_nat (strings.Index s ".") + 1)%nat
        with (Z.to_nat (strings.Index s ".") + length ".")%nat in * by reflexivity.
      split.
      * intros H. rewrite IH1 by lia. reflexivity.
      * intros H. destruct IH2 as [last E]; [lia |].
        exists last. rewrite E. reflexivity.
Qed.

(** [SplitN(s, ".", 4)] from the dot components of [s]. *)
Lemma SplitN_dot (s : string) :
  ((List.length (dotComponents s) <= 4)%nat ->
   strings.SplitN s "." 4 = dotComponents s) /\
  ((4 < List.length (dotComponents s))%nat ->
   exists last, strings.SplitN s "." 4 =
                (firstn 3 (dotComponents s) ++ [last])%list).
Proof.
  unfold strings.SplitN. pose proof (dotComponents_length s) as Hl.
  destruct (Nat.le_gt_cases 3 (length s)) as [G | L].
  - replace (Nat.min 4 (length s + 1) - 1)%nat with 3%nat by lia.
    apply splitLoop_dot.
  - replace (Nat.min 4 (length s + 1) - 1)%nat with (length s) by lia.
    split; [| lia]. intros _. apply splitLoop_dot. lia.
Qed.

(** ** The parser *)

(** No identifier starts with the pointer marker. *)
Lemma IsIdentifier_no_marker (s : string) :
  IsIdentifier s = true -> strings.HasPrefix s "(*" = false.
Proof.
  intros H. destruct (strings.HasPrefix s "(*") eqn:P; [| reflexivity].
  apply HasPrefix_iff in P. destruct P as [r ->].
  cbv in H. discriminate H.
Qed.

Lemma checkTokens_spec (loc : location) :
  isRecvPtr loc = false ->
  checkTokens loc =
  (loc, if tokenOK (recv loc) && tokenOK (fn loc) then None
        else Some errInvalidSyntax).
Proof.
  destruct loc as [p r f b]; cbn [isRecvPtr recv fn]; intros ->.
  unfold checkTokens, tokenOK; cbn [recv fn pkg isRecvPtr].
  destruct (String.eqb_spec r "") as [-> | Hr]; cbn [negb andb orb].
  - destruct (f =? ""); cbn [negb andb orb]; [reflexivity |].
    destruct (IsIdentifier f); reflexivity.
  - destruct (IsIdentifier r) eqn:Ir; cbn [negb andb orb]; [| reflexivity].
    rewrite (IsIdentifier_no_marker r Ir).
    destruct (f =? ""); cbn [negb andb orb]; [reflexivity |].
    destruct (IsIdentifier f); reflexivity.
Qed.

(** [parsePrefix] from the dot components of the text before the first
    separator. *)
Lemma parsePrefix_components (text rest : string) :
  ~ contains text ": " ->
  parsePrefix (text ++ ": " ++ rest) =
  match dotComponents text with
  | [p] => (mkLocation p "" "", None)
  | [p; f] =>
      (mkLocation p "" f, if tokenOK f then None else Some errInvalidSyntax)
  | [p; r; f] =>
      (mkLocation p r f,
       if tokenOK r && tokenOK f then None else Some errInvalidSyntax)
  | p :: r :: f :: _ => (mkLocation p r f, Some errInvalidSyntax)
  | [] => (noLocation, Some errInvalidSyntax)
  end.
Proof.
  intros H. unfold parsePrefix, sep.
  rewrite (Index_sep_first text rest H).
  destruct (Z.ltb_spec (Z.of_nat (length text)) 0) as [L | _]; [lia |].
  rewrite Nat2Z.id, sliceTo_append.
  destruct (SplitN_dot text) as [S1 S2].
  destruct (dotComponents text) as [|p [|c1 [|c2 [|c3 [|c4 l]]]]] eqn:E.
  - pose proof (dotComponents_length text) as Hl. rewrite E in Hl. cbn in Hl. lia.
  - rewrite S1 by (cbn; lia). cbn [List.length nth].
    now rewrite checkTokens_spec.
  - rewrite S1 by (cbn; lia). cbn [List.length nth].
    rewrite checkTokens_spec by reflexivity. reflexivity.
  - rewrite S1 by (cbn; lia). cbn [List.length nth].
    rewrite checkTokens_spec by reflexivity. reflexivity.
  - rewrite S1 by (cbn; lia). reflexivity.
  - destruct S2 as [last ->]; [cbn; lia |]. reflexivity.
Qed.

(** ** The matcher *)

Ltac break_if :=
  match goal with
  | |- context [if ?b then _ else _] => destruct b eqn:?
  end.

(** The matcher reports [errNoPointer] only for a location that carries
    the pointer marker. *)
Lemma match_NoPointer_marker (loc : location) (p : types.Package)
  (decl : ast.FuncDecl) (e : prefixError) :
  match_ loc p decl = Done (Some e) -> errType e = errNoPointer ->
  isRecvPtr loc = true.
Proof.
  unfold match_, mismatch. change isDebug with false.
  destruct (recvString decl) as [rn rp].
  destruct (isRecvPtr loc); [reflexivity |]. cbn [andb]. intros H K. revert H.
  repeat break_if; try destruct (ast.Name decl);
    repeat break_if; intros H; try discriminate H;
    injection H as <-; discriminate K.
Qed.

(** ** The parser never sets the pointer flag *)

Lemma parsePrefix_isRecvPtr (msg : string) :
  isRecvPtr (fst (parsePrefix msg)) = false.
Proof.
  unfold parsePrefix. break_if; [reflexivity |].
  destruct (List.length _) as [|[|[|[|n]]]]; try reflexivity;
    now rewrite checkTokens_spec.
Qed.

(** C4: whenever [parsePrefix] returns no error the location's pointer
    flag is false: a receiver token that starts with ["(*"] is not an
    identifier, so the parser answers [errInvalidSyntax] before it strips
    the marker; and no message makes the parse-then-match pipeline of
    [handleFuncBody] report [errNoPointer]. *)
Theorem parse_then_match_never_NoPointer (msg : string) :
  (forall loc, parsePrefix msg = (loc, None) -> isRecvPtr loc = false) /\
  (forall loc, strings.HasPrefix (recv loc) "(*" = true ->
     checkTokens loc = (loc, Some errInvalidSyntax)) /\
  (forall p decl e,
     checkPrefix p decl msg = Done (Some e) -> errType e <> errNoPointer).
Proof.
  pose proof (parsePrefix_isRecvPtr msg) as F. split; [| split].
  - intros loc E. now rewrite E in F.
  - intros loc P. unfold checkTokens.
    destruct (IsIdentifier (recv loc)) eqn:I.
    + apply IsIdentifier_no_marker in I. congruence.
    + destruct (String.eqb_spec (recv loc) "") as [E | _]; [| reflexivity].
      rewrite E in P. discriminate P.
  - intros p decl e. unfold checkPrefix.
    destruct (parsePrefix msg) as [loc err]. cbn [fst] in F.
    assert (M : match_ loc p decl = Done (Some e) -> errType e <> errNoPointer).
    { intros H K. pose proof (match_NoPointer_marker _ _ _ _ H K). congruence. }
    change isDebug with false.
    destruct err as [[] |]; try exact M.
    + intros H. injection H as <-. discriminate.
    + destruct (match_ loc p decl) as [[e' |] |]; cbn [bind]; intros H;
        try discriminate H; injection H as <-; discriminate.
Qed.

(** ** Messages without a separator *)

Lemma parsePrefix_no_separator (msg : string) :
  ~ contains msg ": " -> parsePrefix msg = (noLocation, Some errNoPrefix).
Proof.
  intros H. unfold parsePrefix, sep. now rewrite (Index_absent msg ": " H).
Qed.

Lemma checkPrefix_no_separator (p : types.Package) (decl : ast.FuncDecl)
  (msg : string) :
  ~ contains msg ": " ->
  checkPrefix p decl msg = Done (Some (prefixErrorOf errNoPrefix)).
Proof.
  intros H. unfold checkPrefix. now rewrite (parsePrefix_no_separator msg H).
Qed.

(** The diagnostic for a call whose message has no separator: the fixed
    lead-in and the recommended prefixes, at the position of the call. *)
Lemma handleFuncBody_no_separator (ps : Pass) (decl : ast.FuncDecl)
  (pos : Z) (fun_ arg0 : ast.Node) (rest : list ast.Node) (format : string) :
  let node := ast.CallExpr pos fun_ (arg0 :: rest) in
  CallName ps node = "errors.New" \/ CallName ps node = "fmt.Errorf" ->
  constantValueString ps arg0 = Some format ->
  ~ contains
      (Sprintf format (map (fun e => {| pass := ps; expr := e |}) rest)) ": " ->
  handleFuncBody ps decl node =
  Done [{| Pos := pos;
           Message := diagnosticMessage ++ ": "
                      ++ generatePrefixRecomendations ps decl |}].
Proof.
  intros node Hc Hf Hm. subst node. unfold handleFuncBody.
  rewrite Hf, (checkPrefix_no_separator _ _ _ Hm).
  destruct Hc as [-> | ->]; reflexivity.
Qed.

(** C9: a message that does not contain [": "] is not parsed any further
    (the location stays the zero value), and [errNoPrefix] is what
    [handleFuncBody] reports for it. *)
Theorem no_separator_is_NoPrefix (msg : string) :
  ~ contains msg ": " ->
  parsePrefix msg = (noLocation, Some errNoPrefix) /\
  (forall p decl,
     checkPrefix p decl msg = Done (Some (prefixErrorOf errNoPrefix))).
Proof.
  intros H. split; [now apply parsePrefix_no_separator |].
  intros p decl. now apply checkPrefix_no_separator.
Qed.

(** ** The package check of the matcher *)

Lemma match_package_mismatch (loc : location) (p : types.Package)
  (decl : ast.FuncDecl) :
  pkg loc <> "" -> strings.HasSuffix (types.Path p) (pkg loc) = false ->
  match_ loc p decl = mismatch errPackageMismatch (pkg loc) (types.Name p) loc.
Proof.
  intros Hp Hs. unfold match_. apply String.eqb_neq in Hp.
  now rewrite Hp, Hs.
Qed.

(** Past the package check the matcher reports no package mismatch. *)
Lemma match_package_ok (loc : location) (p : types.Package)
  (decl : ast.FuncDecl) (e : prefixError) :
  pkg loc <> "" -> strings.HasSuffix (types.Path p) (pkg loc) = true ->
  match_ loc p decl = Done (Some e) -> errType e <> errPackageMismatch.
Proof.
  intros Hp Hs. unfold match_, mismatch. apply String.eqb_neq in Hp.
  rewrite Hp, Hs. cbn [negb]. change isDebug with false.
  destruct (recvString decl) as [rn rp]. destruct (ast.Name decl); [| easy].
  repeat break_if; intros H; try discriminate H; injection H as <-;
    discriminate.
Qed.

(** C5: a non-empty package token that is not a suffix of the package's
    import path makes the matcher answer [errPackageMismatch], for every
    location and so for the location parsed from any message; the test is
    a suffix test: whenever the import path ends with the token, however
    much longer the path is, the matcher reports no package mismatch. *)
Theorem package_token_suffix_match (loc : location) (p : types.Package)
  (decl : ast.FuncDecl) :
  pkg loc <> "" ->
  ((~ exists r, types.Path p = r ++ pkg loc) ->
   match_ loc p decl =
   Done (Some {| errType := errPackageMismatch; got := pkg loc;
                 expect := types.Name p; parsedPrefix := loc |})) /\
  ((exists r, types.Path p = r ++ pkg loc) ->
   forall e, match_ loc p decl = Done (Some e) ->
             errType e <> errPackageMismatch).
Proof.
  intros Hp. split.
  - intros N. apply match_package_mismatch; [exact Hp |].
    destruct (strings.HasSuffix (types.Path p) (pkg loc)) eqn:S; [| reflexivity].
    exfalso. apply N. now apply HasSuffix_iff.
  - intros S e. apply match_package_ok; [exact Hp |]. now apply HasSuffix_iff.
Qed.

(** ** Package and function token only *)

(** C7: with an empty receiver token and a non-empty function token, past
    the package check, the matcher succeeds when the function token is the
    function's name or the receiver's type name, and otherwise answers
    [errFuncNotFound] with the token as [got] and
    ["<functionName> or <receiverName>"] as [expect]. *)
Theorem function_token_only (loc : location) (p : types.Package)
  (decl : ast.FuncDecl) (functionName : string) :
  pkg loc <> "" -> strings.HasSuffix (types.Path p) (pkg loc) = true ->
  recv loc = "" -> fn loc <> "" ->
  ast.Name decl = Some functionName ->
  let recieverName := fst (recvString decl) in
  (fn loc = functionName \/ fn loc = recieverName ->
   match_ loc p decl = Done None) /\
  (fn loc <> functionName -> fn loc <> recieverName ->
   match_ loc p decl =
   Done (Some {| errType := errFuncNotFound; got := fn loc;
                 expect := functionName ++ " or " ++ recieverName;
                 parsedPrefix := loc |})).
Proof.
  intros Hp Hs Hr Hf Hn rn. subst rn. unfold match_, mismatch.
  apply String.eqb_neq in Hp, Hf. rewrite Hp, Hs, Hn, Hr, Hf.
  destruct (recvString decl) as [rn rp]. cbn [negb andb fst String.eqb].
  split.
  - intros [E | E]; rewrite E, String.eqb_refl; [| reflexivity].
    now destruct (functionName =? rn).
  - intros N1 N2. apply String.eqb_neq in N1, N2. now rewrite N1, N2.
Qed.

(** ** Receiver and function token both matching *)

Lemma match_both_equal (loc : location) (p : types.Package)
  (decl : ast.FuncDecl) (functionName : string) :
  pkg loc <> "" -> strings.HasSuffix (types.Path p) (pkg loc) = true ->
  recv loc <> "" -> fn loc <> "" ->
  ast.Name decl = Some functionName ->
  recv loc = fst (recvString decl) -> fn loc = functionName ->
  match_ loc p decl =
  if isRecvPtr loc && negb (snd (recvString decl)) then
    Done (Some {| errType := errNoPointer; got := "(*" ++ recv loc ++ ")";
                  expect := fst (recvString decl); parsedPrefix := loc |})
  else Done None.
Proof.
  intros Hp Hs Hr Hf Hn Er Ef. unfold match_, mismatch.
  apply String.eqb_neq in Hp, Hr, Hf. rewrite Hp, Hs, Hn.
  destruct (recvString decl) as [rn rp]. cbn [fst snd] in *.
  rewrite Hr, Hf. rewrite <- Er, <- Ef, !String.eqb_refl. reflexivity.
Qed.

(** C2, as the code has it: when both tokens are set and equal the
    receiver's type name and the function's name, the matcher answers
    [errNoPointer] exactly when the location carries the pointer marker
    while the method has a value receiver, and succeeds otherwise; so a
    pointer-receiver method accepts the plain and the marked spelling, and
    a value-receiver method only the plain one. *)
Theorem receiver_and_function_match (loc : location) (p : types.Package)
  (decl : ast.FuncDecl) (functionName : string) :
  pkg loc <> "" -> strings.HasSuffix (types.Path p) (pkg loc) = true ->
  recv loc <> "" -> fn loc <> "" ->
  ast.Name decl = Some functionName ->
  recv loc = fst (recvString decl) -> fn loc = functionName ->
  (isRecvPtr loc = true /\ snd (recvString decl) = false ->
   match_ loc p decl =
   Done (Some {| errType := errNoPointer; got := "(*" ++ recv loc ++ ")";
                 expect := fst (recvString decl); parsedPrefix := loc |})) /\
  (isRecvPtr loc = false \/ snd (recvString decl) = true ->
   match_ loc p decl = Done None).
Proof.
  intros Hp Hs Hr Hf Hn Er Ef.
  rewrite (match_both_equal loc p decl functionName) by assumption.
  split.
  - intros [-> ->]. reflexivity.
  - intros [-> | ->]; [reflexivity |]. now rewrite andb_false_r.
Qed.

(** ** Prefixes with invalid syntax *)

Lemma checkPrefix_invalid_syntax (p : types.Package) (decl : ast.FuncDecl)
  (msg : string) (loc : location) :
  parsePrefix msg = (loc, Some errInvalidSyntax) ->
  checkPrefix p decl msg =
  match match_ loc p decl with
  | Done None => Done (Some (prefixErrorOf errInvalidSyntax))
  | Done (Some _) => Done (Some (prefixErrorOf errNoPrefix))
  | Panic => Panic
  end.
Proof.
  intros E. unfold checkPrefix. rewrite E.
  now destruct (match_ loc p decl) as [[e |] |].
Qed.

Lemma checkPrefix_unbalanced_marker :
  checkPrefix aaa.pkg aaa.Method "aaa.(*Struct.Method: error" =
  Done (Some (prefixErrorOf errNoPrefix)).
Proof. reflexivity. Qed.

(** C3, as the code has it: when the parser answers [errInvalidSyntax],
    [errInvalidSyntax] is reported exactly when the best-effort location
    matches the function under the matcher, and the report is [errNoPrefix]
    (the guidance with the recommended prefixes) when it does not match;
    ["aaa.(*Struct.Method: error"] in the pointer-receiver method [Method]
    of [Struct] is reported as [errNoPrefix]. *)
Theorem invalid_syntax_report (p : types.Package) (decl : ast.FuncDecl)
  (msg : string) (loc : location) :
  parsePrefix msg = (loc, Some errInvalidSyntax) ->
  (match_ loc p decl = Done None ->
   checkPrefix p decl msg = Done (Some (prefixErrorOf errInvalidSyntax))) /\
  (forall e, match_ loc p decl = Done (Some e) ->
   checkPrefix p decl msg = Done (Some (prefixErrorOf errNoPrefix))) /\
  checkPrefix aaa.pkg aaa.Method "aaa.(*Struct.Method: error" =
  Done (Some (prefixErrorOf errNoPrefix)).
Proof.
  intros E. rewrite (checkPrefix_invalid_syntax p decl msg loc E).
  split; [| split].
  - now intros ->.
  - now intros e ->.
  - exact checkPrefix_unbalanced_marker.
Qed.

(** ** Declarations the walker does not visit *)

Lemma isReturnsError_last (decl : ast.FuncDecl) :
  isReturnsError decl = true ->
  exists pre, declaredResults decl = (pre ++ [ast.Ident "error"])%list.
Proof.
  unfold isReturnsError, declaredResults.
  destruct (ast.Type_ decl) as [ft |]; [| discriminate].
  destruct (ast.Results ft) as [l |]; [| discriminate].
  destruct (rev l) as [| f r] eqn:R; [discriminate |].
  assert (L : l = (rev r ++ [f])%list)
    by (rewrite <- (rev_involutive l), R; reflexivity).
  destruct (ast.Typ f) as [name | | | | | |] eqn:T; try discriminate.
  intros H. apply String.eqb_eq in H. subst name.
  exists (map ast.Typ (rev r)). now rewrite L, map_app, <- T.
Qed.

Lemma isReturnsError_no_results (decl : ast.FuncDecl) :
  declaredResults decl = [] -> isReturnsError decl = false.
Proof.
  intros E. destruct (isReturnsError decl) eqn:R; [| reflexivity].
  destruct (isReturnsError_last decl R) as [pre P].
  rewrite E in P. now destruct pre.
Qed.

Lemma isReturnsError_other_last (decl : ast.FuncDecl) (pre : list ast.Expr)
  (t : ast.Expr) :
  declaredResults decl = (pre ++ [t])%list -> t <> ast.Ident "error" ->
  isReturnsError decl = false.
Proof.
  intros E N. destruct (isReturnsError decl) eqn:R; [| reflexivity].
  destruct (isReturnsError_last decl R) as [pre' P].
  rewrite E in P. apply app_inj_tail in P. now destruct P.
Qed.

(** C10: a declaration that is not exported, or lists no result, or whose
    last listed result is not the type named exactly [error], is not
    visited: [handleFuncDecl] reports nothing for it, whatever its body. *)
Theorem unvisited_declarations (ps : Pass) (decl : ast.FuncDecl) :
  (exists name, ast.Name decl = Some name /\ IsExported name = false)
  \/ declaredResults decl = []
  \/ (exists pre t, declaredResults decl = (pre ++ [t])%list
                    /\ t <> ast.Ident "error") ->
  handleFuncDecl ps decl = Done [].
Proof.
  intros H. unfold handleFuncDecl.
  destruct (ast.Name decl) as [name |]; [| reflexivity].
  destruct (ast.Body decl) as [body |]; [| reflexivity].
  assert (G : negb (IsExported name) || negb (isReturnsError decl) = true).
  { destruct H as [(n & E & X) | [E | (pre & t & E & N)]].
    - injection E as <-. now rewrite X.
    - rewrite (isReturnsError_no_results decl E). apply orb_true_r.
    - rewrite (isReturnsError_other_last decl pre t E N). apply orb_true_r. }
  now rewrite G.
Qed.

(** ** The recommender *)

(** C6: the recommended prefixes of the pointer-receiver method [Method]
    of [Struct] and of the free function [PublicFunction] in package
    [aaa]. *)
Theorem recommended_prefixes :
  errorPrefixes aaa.pkg aaa.Method =
    ["aaa: "; "aaa.Struct.Method: "; "aaa.(*Struct).Method: "; "aaa.Struct: "]
  /\ NoDup (errorPrefixes aaa.pkg aaa.Method)
  /\ errorPrefixes aaa.pkg aaa.PublicFunction =
       ["aaa: "; "aaa.PublicFunction: "].
Proof.
  split; [reflexivity | split; [| reflexivity]].
  cbv [errorPrefixes aaa.Method aaa.pkg aaa.named ast.Name ast.Recv ast.Typ
       types.Name app append].
  repeat constructor; cbn [In]; intuition discriminate.
Qed.

(** C1, at the input where the code fails it: the recommender offers
    ["aaa.(*Struct).Method: "] for the pointer-receiver method [Method] of
    [Struct], the parser rejects that very prefix with [errInvalidSyntax]
    (the receiver token ["(*Struct)"] is tested as an identifier before the
    marker is stripped), and [handleFuncBody] reports a message that starts
    with it. *)
Theorem recommended_pointer_prefix_rejected :
  In "aaa.(*Struct).Method: " (errorPrefixes aaa.pkg aaa.Method)
  /\ parsePrefix "aaa.(*Struct).Method: " =
       (mkLocation "aaa" "(*Struct)" "Method", Some errInvalidSyntax)
  /\ checkPrefix aaa.pkg aaa.Method "aaa.(*Struct).Method: " =
       Done (Some (prefixErrorOf errNoPrefix)).
Proof.
  split; [cbn; tauto | split; reflexivity].
Qed.

(** ** The number of components of a prefix *)

(** C8, as the code has it: the text before the first [": "] is read by
    its dot components: one is the package, two are package and function,
    three are package, receiver and function, and with four or more the
    parser answers [errInvalidSyntax] (keeping the first three); whenever
    the receiver or the function token that was read is not empty and is
    not an identifier, the parser answers [errInvalidSyntax]; an empty
    token is not tested. *)
Theorem prefix_component_count (text rest : string) :
  ~ contains text ": " ->
  let result := parsePrefix (text ++ ": " ++ rest) in
  (forall p, dotComponents text = [p] ->
     result = (mkLocation p "" "", None)) /\
  (forall p f, dotComponents text = [p; f] ->
     result = (mkLocation p "" f,
               if tokenOK f then None else Some errInvalidSyntax)) /\
  (forall p r f, dotComponents text = [p; r; f] ->
     result = (mkLocation p r f,
               if tokenOK r && tokenOK f then None
               else Some errInvalidSyntax)) /\
  (forall p r f x l, dotComponents text = p :: r :: f :: x :: l ->
     result = (mkLocation p r f, Some errInvalidSyntax)) /\
  ((recv (fst result) <> "" /\ IsIdentifier (recv (fst result)) = false)
   \/ (fn (fst result) <> "" /\ IsIdentifier (fn (fst result)) = false) ->
   snd result = Some errInvalidSyntax).
Proof.
  intros H result. subst result. rewrite (parsePrefix_components text rest H).
  repeat split.
  - now intros p ->.
  - now intros p f ->.
  - now intros p r f ->.
  - now intros p r f x l ->.
  - pose proof (dotComponents_length text) as Hl.
    destruct (dotComponents text) as [|p [|c1 [|c2 [|c3 l]]]];
      cbn [fst snd recv fn mkLocation]; unfold tokenOK.
    + cbn in Hl; lia.
    + intros [[N _] | [N _]]; now elim N.
    + intros [[N _] | [N I]]; [now elim N |].
      apply String.eqb_neq in N. now rewrite N, I.
    + intros [[N I] | [N I]]; apply String.eqb_neq in N; rewrite N, I;
        [reflexivity | now rewrite andb_false_r].
    + reflexivity.
Qed.

(** ** The bytes of an identifier *)

Lemma first_range (s0 : Z) (sz : nat) (lo hi : Z) :
  utf8.first s0 = Some (sz, lo, hi) -> (128 <= lo)%Z.
Proof.
  unfold utf8.first. repeat break_if; intros H; inversion H; lia.
Qed.

Lemma highBytes_0 (s : string) : highBytes 0 s.
Proof. now destruct s. Qed.

(** An ASCII byte decodes to itself, and the bytes a rune spans after its
    first are all 128 or more. *)
Lemma DecodeRuneInString_shape (c : ascii) (t : string) (r : Z) (sz : nat) :
  utf8.DecodeRuneInString (String c t) = (r, sz) ->
  ((utf8.byteZ c < 128)%Z -> r = utf8.byteZ c) /\ highBytes (sz - 1) t.
Proof.
  assert (E : forall x : Z * nat, x = (r, sz) -> snd x = 1%nat ->
              highBytes (sz - 1) t).
  { intros x -> K. cbn in K. subst sz. apply highBytes_0. }
  unfold utf8.DecodeRuneInString.
  destruct (Z.ltb_spec (utf8.byteZ c) 128) as [L | G].
  - intros H. injection H as <- <-. split; [reflexivity | apply highBytes_0].
  - intros H. split; [lia |]. revert H.
    destruct (utf8.first (utf8.byteZ c)) as [[[n lo] hi] |] eqn:F;
      [apply first_range in F | intros H; now apply (E _ H)].
    break_if; [intros H; now apply (E _ H) |].
    destruct t as [|c1 t1]; [intros H; now apply (E _ H) |].
    cbv zeta. destruct (Z.ltb_spec (utf8.byteZ c1) lo) as [L1 | G1];
      [intros H; now apply (E _ H) |].
    cbn [orb]. break_if; [intros H; now apply (E _ H) |].
    break_if.
    { intros H. injection H as _ <-. cbn [Nat.sub highBytes].
      repeat split; lia. }
    destruct t1 as [|c2 t2]; [intros H; now apply (E _ H) |].
    unfold utf8.isCont.
    destruct (Z.leb_spec 128 (utf8.byteZ c2)) as [G2 | L2]; cbn [andb negb];
      [| intros H; now apply (E _ H)].
    break_if; [intros H; now apply (E _ H) |].
    break_if.
    { intros H. injection H as _ <-. cbn [Nat.sub highBytes].
      repeat split; lia. }
    destruct t2 as [|c3 t3]; [intros H; now apply (E _ H) |].
    destruct (Z.leb_spec 128 (utf8.byteZ c3)) as [G3 | L3]; cbn [andb negb];
      [| intros H; now apply (E _ H)].
    break_if; [intros H; now apply (E _ H) |].
    intros H. injection H as _ <-. cbn [Nat.sub highBytes].
    repeat split; lia.
Qed.

Lemma identRune_ascii (i : nat) (c : ascii) :
  (utf8.byteZ c < 128)%Z -> identRune (i, utf8.byteZ c) = true ->
  identByte c = true.
Proof.
  unfold identRune, identByte, IsLetter, IsDigit. cbv zeta.
  destruct (Z.ltb_spec (utf8.byteZ c) 128) as [_ | G]; [| lia]. intros _.
  destruct (Z.leb_spec 128 (utf8.byteZ c)); [lia |].
  destruct ((65 <=? utf8.byteZ c)%Z && (utf8.byteZ c <=? 90)%Z);
    [reflexivity |].
  destruct ((97 <=? utf8.byteZ c)%Z && (utf8.byteZ c <=? 122)%Z);
    [reflexivity |].
  destruct (utf8.byteZ c =? 95)%Z; [now rewrite !orb_true_r |].
  destruct ((48 <=? utf8.byteZ c)%Z && (utf8.byteZ c <=? 57)%Z);
    [reflexivity |].
  now rewrite orb_true_r.
Qed.

Lemma rangeFrom_bytes (s : string) : forall i skip : nat,
  highBytes skip s ->
  forallb identRune (utf8.rangeFrom i skip s) = true ->
  allBytes identByte s = true.
Proof.
  induction s as [|c t IH]; intros i skip Hs Hr; [reflexivity |].
  cbn [allBytes]. cbn [utf8.rangeFrom] in Hr. destruct skip as [|k].
  - destruct (utf8.DecodeRuneInString (String c t)) as [r sz] eqn:D.
    apply DecodeRuneInString_shape in D. destruct D as [Da Dh].
    cbn [forallb] in Hr. apply andb_true_iff in Hr. destruct Hr as [Hc Ht].
    rewrite (IH _ _ Dh Ht), andb_true_r.
    destruct (Z.ltb_spec (utf8.byteZ c) 128) as [L | G].
    + rewrite (Da L) in Hc. now apply identRune_ascii with i.
    + unfold identByte. cbv zeta.
      destruct (Z.leb_spec 128 (utf8.byteZ c)); [reflexivity | lia].
  - cbn [highBytes] in Hs. destruct Hs as [Hc Ht].
    rewrite (IH _ _ Ht Hr), andb_true_r.
    unfold identByte. cbv zeta.
    destruct (Z.leb_spec 128 (utf8.byteZ c)); [reflexivity | lia].
Qed.

(** An identifier is not empty and holds identifier bytes only. *)
Lemma IsIdentifier_bytes (s : string) :
  IsIdentifier s = true -> s <> "" /\ allBytes identByte s = true.
Proof.
  unfold IsIdentifier. destruct (String.eqb_spec s "") as [-> | N];
    [discriminate |].
  destruct (IsKeyword s); [discriminate |]. cbn [orb].
  intros H. split; [exact N |].
  apply (rangeFrom_bytes s 0 0); [apply highBytes_0 | exact H].
Qed.

(** ** Text made of plain bytes *)

Lemma allBytes_app (f : ascii -> bool) (a b : string) :
  allBytes f (a ++ b) = allBytes f a && allBytes f b.
Proof.
  induction a as [|c a IH]; cbn [append allBytes]; [reflexivity |].
  now rewrite IH, andb_assoc.
Qed.

Lemma allBytes_impl (f g : ascii -> bool) (s : string) :
  (forall c, f c = true -> g c = true) ->
  allBytes f s = true -> allBytes g s = true.
Proof.
  intros I. induction s as [|c s IH]; cbn [allBytes]; [reflexivity |].
  rewrite !andb_true_iff. intros [Hc Hs]. split; [now apply I | now apply IH].
Qed.

Lemma identByte_plain (c : ascii) : identByte c = true -> plainByte c = true.
Proof.
  unfold plainByte. intros H.
  destruct (Ascii.eqb_spec c ".") as [-> | _]; [discriminate H |].
  destruct (Ascii.eqb_spec c ":") as [-> | _]; [discriminate H |].
  reflexivity.
Qed.

Lemma IsIdentifier_plain (s : string) :
  IsIdentifier s = true -> s <> "" /\ allBytes plainByte s = true.
Proof.
  intros H. apply IsIdentifier_bytes in H. destruct H as [N B].
  split; [exact N |]. exact (allBytes_impl _ _ s identByte_plain B).
Qed.

(** Text without a colon holds no separator. *)
Lemma plain_no_separator (s : string) :
  allBytes (fun c => negb (c =? ":")%char) s = true -> ~ contains s ": ".
Proof.
  intros H (a & b & ->). rewrite allBytes_app in H.
  apply andb_true_iff in H. destruct H as [_ H]. discriminate H.
Qed.

Lemma plain_no_colon (s : string) :
  allBytes plainByte s = true ->
  allBytes (fun c => negb (c =? ":")%char) s = true.
Proof.
  apply allBytes_impl. unfold plainByte. intros c H.
  now apply andb_true_iff in H.
Qed.

(** A plain piece followed by a dot is the first component. *)
Lemma dotComponents_plain_dot (a b : string) :
  allBytes plainByte a = true ->
  dotComponents (a ++ "." ++ b) = a :: dotComponents b.
Proof.
  induction a as [|c a IH]; cbn [allBytes]; intros H; [reflexivity |].
  apply andb_true_iff in H. destruct H as [Hc Ha].
  change (String c a ++ "." ++ b) with (String c (a ++ "." ++ b)).
  cbn [dotComponents]. rewrite (IH Ha).
  unfold plainByte in Hc. apply andb_true_iff in Hc. destruct Hc as [Hc _].
  apply negb_true_iff in Hc. now rewrite Hc.
Qed.

Lemma dotComponents_plain (a : string) :
  allBytes plainByte a = true -> dotComponents a = [a].
Proof.
  induction a as [|c a IH]; cbn [allBytes]; intros H; [reflexivity |].
  apply andb_true_iff in H. destruct H as [Hc Ha].
  cbn [dotComponents]. rewrite (IH Ha).
  unfold plainByte in Hc. apply andb_true_iff in Hc. destruct Hc as [Hc _].
  apply negb_true_iff in Hc. now rewrite Hc.
Qed.

(** ** Prefixes of one, two and three plain components *)

Lemma parsePrefix_one (a : string) :
  allBytes plainByte a = true ->
  parsePrefix (a ++ ": ") = (mkLocation a "" "", None).
Proof.
  intros Ha. change (a ++ ": ") with (a ++ ": " ++ "").
  rewrite parsePrefix_components
    by (apply plain_no_separator; now apply plain_no_colon).
  now rewrite (dotComponents_plain a Ha).
Qed.

Lemma parsePrefix_two (a b : string) :
  allBytes plainByte a = true -> allBytes plainByte b = true ->
  parsePrefix (a ++ "." ++ b ++ ": ") =
  (mkLocation a "" b, if tokenOK b then None else Some errInvalidSyntax).
Proof.
  intros Ha Hb.
  replace (a ++ "." ++ b ++ ": ") with ((a ++ "." ++ b) ++ ": " ++ "")
    by now rewrite !append_assoc.
  rewrite parsePrefix_components.
  - now rewrite (dotComponents_plain_dot a b Ha), (dotComponents_plain b Hb).
  - apply plain_no_separator. rewrite !allBytes_app.
    now rewrite (plain_no_colon a Ha), (plain_no_colon b Hb).
Qed.

Lemma parsePrefix_three (a b c : string) :
  allBytes plainByte a = true -> allBytes plainByte b = true ->
  allBytes plainByte c = true ->
  parsePrefix (a ++ "." ++ b ++ "." ++ c ++ ": ") =
  (mkLocation a b c,
   if tokenOK b && tokenOK c then None else Some errInvalidSyntax).
Proof.
  intros Ha Hb Hc.
  replace (a ++ "." ++ b ++ "." ++ c ++ ": ")
    with ((a ++ "." ++ b ++ "." ++ c) ++ ": " ++ "")
    by now rewrite !append_assoc.
  rewrite parsePrefix_components.
  - now rewrite (dotComponents_plain_dot a _ Ha),
      (dotComponents_plain_dot b c Hb), (dotComponents_plain c Hc).
  - apply plain_no_separator. rewrite !allBytes_app.
    now rewrite (plain_no_colon a Ha), (plain_no_colon b Hb),
      (plain_no_colon c Hc).
Qed.

Lemma tokenOK_identifier (s : string) : IsIdentifier s = true -> tokenOK s = true.
Proof. unfold tokenOK. intros ->. apply orb_true_r. Qed.

(** ** The round trip of the recommended prefixes

    For a package whose name is an identifier that ends its import path,
    and a declaration whose names are identifiers. *)

Section round_trip.

Variables (p : types.Package) (decl : ast.FuncDecl) (name : string).

Hypothesis package_name : IsIdentifier (types.Name p) = true.
Hypothesis package_path :
  strings.HasSuffix (types.Path p) (types.Name p) = true.
Hypothesis decl_name : ast.Name decl = Some name.
Hypothesis name_ident : IsIdentifier name = true.

Lemma match_past_package (r f : string) :
  match_ (mkLocation (types.Name p) r f) p decl =
  let '(recieverName, isRecieverPointer) := recvString decl in
  if (r =? "") && (f =? "") then Done None
  else if (r =? "") && negb (f =? "") then
    if f =? recieverName then Done None
    else if f =? name then Done None
    else mismatch errFuncNotFound f (name ++ " or " ++ recieverName)
                  (mkLocation (types.Name p) r f)
  else if negb (r =? "") && negb (f =? "") then
    if (r =? recieverName) && negb (f =? name) then
      mismatch errMethodNotFound f name (mkLocation (types.Name p) r f)
    else if negb (r =? recieverName) && (f =? name) then
      mismatch errRecieverNotFound r recieverName
               (mkLocation (types.Name p) r f)
    else if negb (r =? recieverName) && negb (f =? name) then
      mismatch errMethodNotFound (r ++ "." ++ f) (recieverName ++ "." ++ name)
               (mkLocation (types.Name p) r f)
    else Done None
  else Done None.
Proof.
  unfold match_. cbn [pkg recv fn isRecvPtr mkLocation].
  destruct (IsIdentifier_plain _ package_name) as [N _].
  apply String.eqb_neq in N. rewrite N, package_path, decl_name.
  cbn [negb andb]. change isDebug with false.
  destruct (recvString decl) as [rn rp].
  repeat break_if; reflexivity.
Qed.

Lemma round_trip_package :
  roundTrips parsePrefix p decl (types.Name p ++ ": ").
Proof.
  destruct (IsIdentifier_plain _ package_name) as [_ B].
  eexists. split; [now apply parsePrefix_one |].
  rewrite match_past_package. now destruct (recvString decl).
Qed.

Lemma round_trip_function :
  roundTrips parsePrefix p decl (types.Name p ++ "." ++ name ++ ": ").
Proof.
  destruct (IsIdentifier_plain _ package_name) as [_ B].
  destruct (IsIdentifier_plain _ name_ident) as [N Bn].
  eexists. split.
  - rewrite (parsePrefix_two _ _ B Bn).
    now rewrite (tokenOK_identifier _ name_ident).
  - rewrite match_past_package. destruct (recvString decl) as [rn rp].
    apply String.eqb_neq in N. rewrite N, String.eqb_refl.
    cbn [andb negb String.eqb].
    destruct (name =? rn); [reflexivity | now rewrite String.eqb_refl].
Qed.

Lemma round_trip_type (rname : string) (ptr : bool) :
  recvString decl = (rname, ptr) -> IsIdentifier rname = true ->
  roundTrips parsePrefix p decl (types.Name p ++ "." ++ rname ++ ": ").
Proof.
  intros R I. destruct (IsIdentifier_plain _ package_name) as [_ B].
  destruct (IsIdentifier_plain _ I) as [N Bn].
  eexists. split.
  - rewrite (parsePrefix_two _ _ B Bn). now rewrite (tokenOK_identifier _ I).
  - rewrite match_past_package, R. apply String.eqb_neq in N.
    cbn [String.eqb andb negb]. now rewrite N, String.eqb_refl.
Qed.

Lemma round_trip_method (rname : string) (ptr : bool) :
  recvString decl = (rname, ptr) -> IsIdentifier rname = true ->
  roundTrips parsePrefix p decl
    (types.Name p ++ "." ++ rname ++ "." ++ name ++ ": ").
Proof.
  intros R I. destruct (IsIdentifier_plain _ package_name) as [_ B].
  destruct (IsIdentifier_plain _ I) as [Nr Br].
  destruct (IsIdentifier_plain _ name_ident) as [Nn Bn].
  eexists. split.
  - rewrite (parsePrefix_three _ _ _ B Br Bn).
    now rewrite (tokenOK_identifier _ I), (tokenOK_identifier _ name_ident).
  - rewrite match_past_package, R. apply String.eqb_neq in Nr, Nn.
    now rewrite Nr, Nn, !String.eqb_refl.
Qed.

(** The marked receiver token is not an identifier, and is not the
    receiver's name. *)
Lemma marked_not_identifier (ident : string) :
  tokenOK ("(*" ++ ident ++ ")") = false.
Proof.
  unfold tokenOK. cbn [append String.eqb Ascii.eqb orb].
  destruct (IsIdentifier (String "(" (String "*" (ident ++ ")")))) eqn:E;
    [| reflexivity].
  apply IsIdentifier_no_marker in E. discriminate E.
Qed.

Lemma marked_not_name (ident : string) :
  ("(*" ++ ident ++ ")" =? ident) = false.
Proof.
  apply String.eqb_neq. intros E. apply (f_equal length) in E.
  rewrite !length_append in E. cbn in E. lia.
Qed.

(** The marked spelling of a pointer receiver is rejected by the parser,
    and a message that starts with it is reported. *)
Lemma marked_prefix_rejected (ident : string) :
  recvString decl = (ident, true) -> IsIdentifier ident = true ->
  let prefix := types.Name p ++ ".(*" ++ ident ++ ")." ++ name ++ ": " in
  parsePrefix prefix =
    (mkLocation (types.Name p) ("(*" ++ ident ++ ")") name,
     Some errInvalidSyntax)
  /\ checkPrefix p decl prefix = Done (Some (prefixErrorOf errNoPrefix)).
Proof.
  intros R I prefix.
  destruct (IsIdentifier_plain _ package_name) as [_ B].
  destruct (IsIdentifier_plain _ I) as [Nr Br].
  destruct (IsIdentifier_plain _ name_ident) as [Nn Bn].
  assert (E : parsePrefix prefix =
              (mkLocation (types.Name p) ("(*" ++ ident ++ ")") name,
               Some errInvalidSyntax)).
  { subst prefix.
    replace (types.Name p ++ ".(*" ++ ident ++ ")." ++ name ++ ": ")
      with (types.Name p ++ "." ++ ("(*" ++ ident ++ ")") ++ "." ++ name ++ ": ")
      by (cbn [append]; now rewrite append_assoc).
    rewrite parsePrefix_three; try assumption.
    - now rewrite marked_not_identifier.
    - cbn [append allBytes]. now rewrite allBytes_app, Br. }
  split; [exact E |].
  rewrite (checkPrefix_invalid_syntax _ _ _ _ E), match_past_package, R.
  apply String.eqb_neq in Nn.
  rewrite marked_not_name, Nn, String.eqb_refl. reflexivity.
Qed.

(** X20: every prefix recommended for a free function makes the round
    trip: it parses without an error into a location that the matcher
    accepts for the function. *)
Lemma round_trip_free_function :
  ast.Recv decl = None \/ ast.Recv decl = Some [] ->
  Forall (roundTrips parsePrefix p decl) (errorPrefixes p decl).
Proof.
  intros R. unfold errorPrefixes. rewrite decl_name.
  assert (F : Forall (roundTrips parsePrefix p decl)
                [types.Name p ++ ": "; types.Name p ++ "." ++ name ++ ": "]).
  { repeat constructor; [apply round_trip_package | apply round_trip_function]. }
  destruct R as [-> | ->]; exact F.
Qed.

(** X21: every prefix recommended for a value-receiver method makes the
    round trip. *)
Lemma round_trip_value_method (f0 : ast.Field) (l : list ast.Field)
  (rname : string) :
  ast.Recv decl = Some (f0 :: l) -> ast.Typ f0 = ast.Ident rname ->
  IsIdentifier rname = true ->
  Forall (roundTrips parsePrefix p decl) (errorPrefixes p decl).
Proof.
  intros R T I. unfold errorPrefixes. rewrite decl_name, R, T.
  assert (S : recvString decl = (rname, false))
    by (unfold recvString; now rewrite R, T).
  repeat constructor;
    [apply round_trip_package | now apply round_trip_method with false
     | now apply round_trip_type with false].
Qed.

(** X22: of the four prefixes recommended for a pointer-receiver method,
    the first, second and fourth make the round trip and the third, the
    marked spelling, is rejected. *)
Lemma round_trip_pointer_method (f0 : ast.Field) (l : list ast.Field)
  (ident : string) :
  ast.Recv decl = Some (f0 :: l) ->
  ast.Typ f0 = ast.StarExpr (ast.Ident ident) ->
  IsIdentifier ident = true ->
  exists q1 q2 q3 q4,
    errorPrefixes p decl = [q1; q2; q3; q4]
    /\ q3 = types.Name p ++ ".(*" ++ ident ++ ")." ++ name ++ ": "
    /\ roundTrips parsePrefix p decl q1
    /\ roundTrips parsePrefix p decl q2
    /\ roundTrips parsePrefix p decl q4
    /\ snd (parsePrefix q3) = Some errInvalidSyntax
    /\ checkPrefix p decl q3 = Done (Some (prefixErrorOf errNoPrefix)).
Proof.
  intros R T I.
  assert (S : recvString decl = (ident, true))
    by (unfold recvString; now rewrite R, T).
  destruct (marked_prefix_rejected ident S I) as [E C].
  do 4 eexists. split; [| split; [reflexivity |]].
  - unfold errorPrefixes. rewrite decl_name, R, T. reflexivity.
  - repeat split.
    + apply round_trip_package.
    + now apply round_trip_method with true.
    + now apply round_trip_type with true.
    + now rewrite E.
    + exact C.
Qed.

End round_trip.

End errchain.

(** ** The theorems at concrete inputs

    The messages below are ASCII text, so the tables for the runes from 128
    up are never consulted; [aaa.noRune] stands in for them. *)

Lemma no_separator_in (s : string) :
  strings.Index s ": " = (-1)%Z -> ~ contains s ": ".
Proof. intros E C. apply Index_present in C. lia. Qed.

Lemma not_a_suffix (s x : string) :
  strings.HasSuffix s x = false -> ~ exists r, s = r ++ x.
Proof. intros E C. apply HasSuffix_iff in C. congruence. Qed.

(** The value-receiver method [MethodWithoutPointer] with the marked
    spelling of its receiver. *)
Lemma receiver_and_function_match_witness :
  match_ {| pkg := "aaa"; recv := "Struct"; fn := "MethodWithoutPointer";
            isRecvPtr := true |} aaa.pkg aaa.MethodWithoutPointer =
  Done (Some {| errType := errNoPointer; got := "(*Struct)";
                expect := "Struct";
                parsedPrefix :=
                  {| pkg := "aaa"; recv := "Struct";
                     fn := "MethodWithoutPointer"; isRecvPtr := true |} |}).
Proof.
  pose proof (receiver_and_function_match
                {| pkg := "aaa"; recv := "Struct";
                   fn := "MethodWithoutPointer"; isRecvPtr := true |}
                aaa.pkg aaa.MethodWithoutPointer "MethodWithoutPointer"
                ltac:(discriminate) eq_refl ltac:(discriminate)
                ltac:(discriminate) eq_refl eq_refl eq_refl) as [H _].
  apply H. split; reflexivity.
Defined.

(** C2 as the claim states it fails: the pointer-receiver method [Method]
    of [Struct] accepts the prefix without the marker, where the claim
    expects [errNoPointer]; and the value-receiver method
    [MethodWithoutPointer] is answered [errNoPointer] for the marked
    spelling, where the claim expects success. *)
Lemma pointer_marker_counterexample :
  recvString aaa.Method = ("Struct", true)
  /\ match_ {| pkg := "aaa"; recv := "Struct"; fn := "Method";
               isRecvPtr := false |} aaa.pkg aaa.Method = Done None
  /\ recvString aaa.MethodWithoutPointer = ("Struct", false)
  /\ match_ {| pkg := "aaa"; recv := "Struct"; fn := "MethodWithoutPointer";
               isRecvPtr := true |} aaa.pkg aaa.MethodWithoutPointer
     <> Done None.
Proof. repeat split. discriminate. Qed.

(** Four components whose first three name [Method]: the best-effort
    location matches, and [errInvalidSyntax] is reported. *)
Lemma invalid_syntax_report_witness :
  checkPrefix aaa.noRune aaa.noRune aaa.pkg aaa.Method
    "aaa.Struct.Method.x: error" =
  Done (Some (prefixErrorOf errInvalidSyntax)).
Proof.
  destruct (invalid_syntax_report aaa.noRune aaa.noRune aaa.pkg aaa.Method
              "aaa.Struct.Method.x: error" (mkLocation "aaa" "Struct" "Method"))
    as [H _]; [reflexivity |].
  apply H. reflexivity.
Defined.

(** C3 as the claim states it fails: for ["aaa.(*Struct.Method: error"]
    in [Method] the best-effort location does not match and the report is
    [errNoPrefix], not [errInvalidSyntax]; and for
    ["aaa.Struct.Method.x: error"] the best-effort location matches and the
    report is [errInvalidSyntax], not the [errNoPrefix] guidance. *)
Lemma invalid_syntax_counterexample :
  fst (parsePrefix aaa.noRune aaa.noRune "aaa.(*Struct.Method: error") =
    mkLocation "aaa" "(*Struct" "Method"
  /\ snd (parsePrefix aaa.noRune aaa.noRune "aaa.(*Struct.Method: error") =
       Some errInvalidSyntax
  /\ checkPrefix aaa.noRune aaa.noRune aaa.pkg aaa.Method
       "aaa.(*Struct.Method: error" = Done (Some (prefixErrorOf errNoPrefix))
  /\ snd (parsePrefix aaa.noRune aaa.noRune "aaa.Struct.Method.x: error") =
       Some errInvalidSyntax
  /\ match_ (fst (parsePrefix aaa.noRune aaa.noRune
                    "aaa.Struct.Method.x: error")) aaa.pkg aaa.Method =
       Done None
  /\ checkPrefix aaa.noRune aaa.noRune aaa.pkg aaa.Method
       "aaa.Struct.Method.x: error" =
       Done (Some (prefixErrorOf errInvalidSyntax)).
Proof. repeat split. Qed.

Lemma parse_then_match_never_NoPointer_witness :
  isRecvPtr (mkLocation "aaa" "Struct" "Method") = false
  /\ errType {| errType := errPackageMismatch; got := "bbb"; expect := "aaa";
                parsedPrefix := mkLocation "bbb" "" "X" |} <> errNoPointer.
Proof.
  split.
  - apply (proj1 (parse_then_match_never_NoPointer aaa.noRune aaa.noRune
                    "aaa.Struct.Method: ok")).
    reflexivity.
  - apply (proj2 (proj2 (parse_then_match_never_NoPointer aaa.noRune
                           aaa.noRune "bbb.X: y")) aaa.pkg aaa.Method).
    reflexivity.
Defined.

Lemma package_token_suffix_match_witness :
  match_ (mkLocation "bbb" "" "") aaa.pkg aaa.Method =
  Done (Some {| errType := errPackageMismatch; got := "bbb"; expect := "aaa";
                parsedPrefix := mkLocation "bbb" "" "" |}).
Proof.
  destruct (package_token_suffix_match (mkLocation "bbb" "" "") aaa.pkg
              aaa.Method) as [H _]; [discriminate |].
  apply H. apply not_a_suffix. reflexivity.
Defined.

Lemma function_token_only_witness :
  match_ (mkLocation "aaa" "" "Struct") aaa.pkg aaa.Method = Done None.
Proof.
  pose proof (function_token_only (mkLocation "aaa" "" "Struct") aaa.pkg
                aaa.Method "Method" ltac:(discriminate) eq_refl eq_refl
                ltac:(discriminate) eq_refl) as [H _].
  apply H. right. reflexivity.
Defined.

Lemma no_separator_is_NoPrefix_witness :
  parsePrefix aaa.noRune aaa.noRune "input too short" =
    (noLocation, Some errNoPrefix)
  /\ checkPrefix aaa.noRune aaa.noRune aaa.pkg aaa.Method "input too short" =
       Done (Some (prefixErrorOf errNoPrefix)).
Proof.
  destruct (no_separator_is_NoPrefix aaa.noRune aaa.noRune "input too short")
    as [H1 H2].
  - apply no_separator_in. reflexivity.
  - split; [exact H1 | apply H2].
Defined.

(** C8 as the claim states it fails: the receiver token of
    ["aaa..Method: x"] and the function token of ["aaa.: x"] are empty, the
    empty string is not an identifier, and the parser returns no error. *)
Lemma empty_token_counterexample :
  dotComponents "aaa..Method" = ["aaa"; ""; "Method"]
  /\ dotComponents "aaa." = ["aaa"; ""]
  /\ IsIdentifier aaa.noRune aaa.noRune "" = false
  /\ parsePrefix aaa.noRune aaa.noRune "aaa..Method: x" =
       (mkLocation "aaa" "" "Method", None)
  /\ parsePrefix aaa.noRune aaa.noRune "aaa.: x" =
       (mkLocation "aaa" "" "", None).
Proof. repeat split. Qed.

Lemma prefix_component_count_witness :
  parsePrefix aaa.noRune aaa.noRune "aaa.Struct.Method: ok" =
  (mkLocation "aaa" "Struct" "Method", None).
Proof.
  destruct (prefix_component_count aaa.noRune aaa.noRune
              "aaa.Struct.Method" "ok") as (_ & _ & H3 & _).
  - apply no_separator_in. reflexivity.
  - exact (H3 _ _ _ eq_refl).
Defined.

(** The unexported [privateFunction] returns an unprefixed message and is
    not reported. *)
Lemma unvisited_declarations_witness :
  handleFuncDecl aaa.noRune aaa.noRune aaa.noRune aaa.callName aaa.sprintf
    aaa.quote aaa.thePass aaa.privateFunction = Done [].
Proof.
  apply unvisited_declarations. left.
  exists "privateFunction". split; reflexivity.
Defined.

(** The same body in the exported [PublicFunction] is reported, with the
    two recommended prefixes. *)
Lemma PublicFunction_reported :
  handleFuncDecl aaa.noRune aaa.noRune aaa.noRune aaa.callName aaa.sprintf
    aaa.quote aaa.thePass aaa.PublicFunction =
  Done [{| Pos := 520;
           Message :=
             diagnosticMessage
             ++ ": Consider starting message with one of the following strings: "
             ++ aaa.quote "aaa: " ++ ", " ++ aaa.quote "aaa.PublicFunction: " |}].
Proof. reflexivity. Qed.

(** The round-trip lemmas at [Method]: the plain spellings and the bare
    type make the round trip, the marked spelling is rejected. *)
Lemma Method_round_trip :
  roundTrips (parsePrefix aaa.noRune aaa.noRune) aaa.pkg aaa.Method "aaa: "
  /\ roundTrips (parsePrefix aaa.noRune aaa.noRune) aaa.pkg aaa.Method
       "aaa.Struct.Method: "
  /\ roundTrips (parsePrefix aaa.noRune aaa.noRune) aaa.pkg aaa.Method
       "aaa.Struct: "
  /\ snd (parsePrefix aaa.noRune aaa.noRune "aaa.(*Struct).Method: ") =
       Some errInvalidSyntax.
Proof.
  destruct (round_trip_pointer_method aaa.noRune aaa.noRune aaa.pkg aaa.Method
              "Method" eq_refl eq_refl eq_refl eq_refl
              (aaa.named "x" (ast.StarExpr (ast.Ident "Struct"))) []
              "Struct" eq_refl eq_refl eq_refl)
    as (q1 & q2 & q3 & q4 & E & -> & R1 & R2 & R4 & P & _).
  injection E as <- <- <-. repeat split; assumption.
Defined.

(** A message of [Method] that starts with the marked spelling is reported,
    and the report recommends the spelling the message already has. *)
Lemma Method_marked_prefix_reported :
  handleFuncDecl aaa.noRune aaa.noRune aaa.noRune aaa.callName aaa.sprintf
    aaa.quote (aaa.passWith "aaa.(*Struct).Method: error") aaa.Method =
  Done [{| Pos := 120;
           Message :=
             diagnosticMessage
             ++ ": Consider starting message with one of the following strings: "
             ++ aaa.quote "aaa: " ++ ", " ++ aaa.quote "aaa.Struct.Method: "
             ++ ", " ++ aaa.quote "aaa.(*Struct).Method: "
             ++ ", " ++ aaa.quote "aaa.Struct: " |}].
Proof. reflexivity. Qed.

(** The recommender writes the package's name and the matcher reads the
    package's path: where the path does not end with the name, no
    recommended prefix matches. *)
Lemma package_name_not_path_suffix :
  errorPrefixes aaa.yaml aaa.Marshal = ["yaml: "; "yaml.Marshal: "]
  /\ checkPrefix aaa.noRune aaa.noRune aaa.yaml aaa.Marshal "yaml: " =
       mismatch errPackageMismatch "yaml" "yaml" (mkLocation "yaml" "" "")
  /\ checkPrefix aaa.noRune aaa.noRune aaa.yaml aaa.Marshal "yaml.Marshal: " =
       mismatch errPackageMismatch "yaml" "yaml"
                (mkLocation "yaml" "" "Marshal").
Proof. repeat split. Qed.

(** * The rest of the checker

    [run], [isGenerated], [isTest] and [exprString], and further properties
    of the recommender, the parser, the matcher and the walker. *)

(** ** Files and top-level declarations *)

Module file.

(** A top-level declaration: a function declaration or any other one. *)
Inductive Decl : Type :=
| FuncDecl (d : ast.FuncDecl)
| GenDecl.

(** An [*ast.File] as [run] reads it: the [Text] of every comment of every
    comment group, the declarations, and the name of the [*token.File]
    that [pass.Fset.File(file.Pos())] finds ([None] for nil). *)
Record File : Type := {
  Comments : list (list string);
  Decls : list Decl;
  FsetName : option string
}.

End file.

(** ** Expressions as [exprString] tells them apart *)

Module expr.

(** [Op] is [x.Op.String()], [Sel] the [Name] of the selector's [*Ident];
    [Other] is every expression of the [default] case, with the
    expressions below it. *)
Inductive Expr : Type :=
| BasicLit (Value : string)
| Ident (Name : string)
| SelectorExpr (X : Expr) (Sel : string)
| BinaryExpr (X : Expr) (Op : string) (Y : Expr)
| UnaryExpr (Op : string) (X : Expr)
| CallExpr (Fun : Expr) (Args : list Expr)
| IndexExpr (X : Expr) (Index : Expr)
| SliceExpr (X : Expr) (Bounds : list Expr)
| Other (children : list Expr).

End expr.

(** [exprString]; [exprString(x.Sel, depth+1)] is the [*ast.Ident] case one
    level down. *)
Fixpoint exprString (e : expr.Expr) (depth : Z) : string :=
  if (depth >? 2)%Z then "?"
  else
    match e with
    | expr.BasicLit value => value
    | expr.Ident name => name
    | expr.SelectorExpr x sel =>
        let a := exprString x (depth + 1) in
        let b := if (depth + 1 >? 2)%Z then "?" else sel in
        if (a =? "?") || (b =? "?") then "?" else a ++ "." ++ b
    | expr.BinaryExpr x op y =>
        exprString x (depth + 1) ++ op ++ exprString y (depth + 1)
    | expr.UnaryExpr op x =>
        let ex := exprString x (depth + 1) in
        if ex =? "?" then "?" else op ++ ex
    | expr.CallExpr f args =>
        let fn := exprString f (depth + 1) in
        if fn =? "?" then "?"
        else fn ++ "(" ++ joinComma (map (fun a => exprString a (depth + 1)) args)
                ++ ")"
    | expr.IndexExpr x _ => exprString x (depth + 1) ++ "[?]"
    | expr.SliceExpr x _ => exprString x (depth + 1) ++ "[?]"
    | expr.Other _ => "?"
    end.

(** ** Notions the statements below are written with *)

(** The nodes [ast.Inspect] visits below and including [n], in order. *)
Fixpoint preorder (n : ast.Node) : list ast.Node :=
  n :: match n with
       | ast.CallExpr _ f args => (preorder f ++ flat_map preorder args)%list
       | ast.Other _ children => flat_map preorder children
       end.

Definition isCall (n : ast.Node) : bool :=
  match n with
  | ast.CallExpr _ _ _ => true
  | ast.Other _ _ => false
  end.

(** [e] with everything [k] levels down and deeper cut off, and without
    the index of an index expression and the bounds of a slice
    expression. *)
Fixpoint prune (k : nat) (e : expr.Expr) : expr.Expr :=
  match k with
  | O => expr.Other []
  | S k' =>
      match e with
      | expr.BasicLit v => expr.BasicLit v
      | expr.Ident n => expr.Ident n
      | expr.SelectorExpr x sel => expr.SelectorExpr (prune k' x) sel
      | expr.BinaryExpr x op y => expr.BinaryExpr (prune k' x) op (prune k' y)
      | expr.UnaryExpr op x => expr.UnaryExpr op (prune k' x)
      | expr.CallExpr f args => expr.CallExpr (prune k' f) (map (prune k') args)
      | expr.IndexExpr x _ => expr.IndexExpr (prune k' x) (expr.Other [])
      | expr.SliceExpr x _ => expr.SliceExpr (prune k' x) []
      | expr.Other _ => expr.Other []
      end
  end.

(** The selector chain [e.n1.n2...]. *)
Fixpoint selectors (e : expr.Expr) (names : list string) : expr.Expr :=
  match names with
  | [] => e
  | n :: r => selectors (expr.SelectorExpr e n) r
  end.

(** [x.n1.n2...] as text. *)
Fixpoint dotted (x : string) (names : list string) : string :=
  match names with
  | [] => x
  | n :: r => dotted (x ++ "." ++ n) r
  end.

(** [decl] without its receiver. *)
Definition withoutReceiver (decl : ast.FuncDecl) : ast.FuncDecl :=
  {| ast.Recv := None; ast.Name := ast.Name decl;
     ast.Type_ := ast.Type_ decl; ast.Body := ast.Body decl |}.

(** The receiver is written as a named type or a pointer to one. *)
Definition simpleReceiver (t : ast.Expr) : bool :=
  match t with
  | ast.Ident _ => true
  | ast.StarExpr (ast.Ident _) => true
  | _ => false
  end.

(** A byte that is not a dot. *)
Definition notDot (c : ascii) : bool := negb (c =? ".")%char.

(** An ASCII byte. *)
Definition asciiByte (c : ascii) : bool := (utf8.byteZ c <? 128)%Z.

Definition upperByte (c : ascii) : bool :=
  (65 <=? utf8.byteZ c)%Z && (utf8.byteZ c <=? 90)%Z.

(** [c += 'a' - 'A'] for an upper-case byte. *)
Definition lowerByte (c : ascii) : ascii :=
  if upperByte c then ascii_of_N (N_of_ascii c + 32) else c.

Fixpoint mapBytes (f : ascii -> ascii) (s : string) : string :=
  match s with
  | "" => ""
  | String c t => String (f c) (mapBytes f t)
  end.

(** [strings.Contains] *)
Definition Contains (s substr : string) : bool :=
  (0 <=? strings.Index s substr)%Z.

(** [isTest]: the file's name in the file set ends with [_test.go]. *)
Definition isTest (f : file.File) : bool :=
  match file.FsetName f with
  | None => false
  | Some name => strings.HasSuffix name "_test.go"
  end.

(** ** Files of the package [aaa] *)

Module files.

(** [aaa.go] of the test data, with some of its declarations. *)
Definition source : file.File :=
  {| file.Comments := [];
     file.Decls := [file.GenDecl; file.FuncDecl aaa.Method;
                    file.FuncDecl aaa.privateFunction;
                    file.FuncDecl aaa.PublicFunction];
     file.FsetName := Some "aaa.go" |}.

(** The same declarations in a test file. *)
Definition test : file.File :=
  {| file.Comments := [];
     file.Decls := file.Decls source;
     file.FsetName := Some "aaa_test.go" |}.

(** The same declarations under the header of a code generator. *)
Definition generated : file.File :=
  {| file.Comments := [["// Code GENERATED BY a tool."]];
     file.Decls := file.Decls source;
     file.FsetName := Some "zz_gen.go" |}.

(** The same declarations under a [DO NOT EDIT] comment. *)
Definition frozen : file.File :=
  {| file.Comments := [["// Package aaa."; "// DO NOT EDIT."]];
     file.Decls := file.Decls source;
     file.FsetName := Some "frozen.go" |}.

(** [func (s *Set[T]) Add() error]: a method of a generic type. *)
Definition Add : ast.FuncDecl :=
  {| ast.Recv := Some [aaa.named "s"
                         (ast.StarExpr (ast.IndexExpr (ast.Ident "Set")
                                                      (ast.Ident "T")))];
     ast.Name := Some "Add";
     ast.Type_ := aaa.results [ast.Ident "error"];
     ast.Body := Some (ast.Other 800 [aaa.returnNew 820]) |}.

(** No package is main-like. *)
Definition notMain (_ : Pass) : bool := false.

(** Lower-casing that leaves text with runes from 128 up as it is. *)
Definition keep (s : string) : string := s.

End files.

Section checker.

Set Default Proof Using "Type".

Variables unicodeLetter unicodeDigit unicodeUpper : Z -> bool.
Variable CallName : Pass -> ast.Node -> string.
Variable Sprintf : string -> list printableExpr -> string.
Variable Quote : string -> string.

(** [strings.Map(unicode.ToLower, s)], which [strings.ToLower] calls for
    text that is not all ASCII, and [code.IsMainLike]. *)
Variable mapToLower : string -> string.
Variable IsMainLike : Pass -> bool.

(** The definitions of the section [errchain] at these variables. *)
Local Abbreviation parse := (parsePrefix unicodeLetter unicodeDigit).
Local Abbreviation check := (checkPrefix unicodeLetter unicodeDigit).
Local Abbreviation identifier := (IsIdentifier unicodeLetter unicodeDigit).
Local Abbreviation tokenOk := (tokenOK unicodeLetter unicodeDigit).
Local Abbreviation exported := (IsExported unicodeUpper).
Local Abbreviation recommendations := (generatePrefixRecomendations Quote).
Local Abbreviation reportAt := (report Quote).
Local Abbreviation funcBody :=
  (handleFuncBody unicodeLetter unicodeDigit CallName Sprintf Quote).
Local Abbreviation funcDecl :=
  (handleFuncDecl unicodeLetter unicodeDigit unicodeUpper CallName Sprintf
                  Quote).

(** [strings.ToLower]: ASCII text is lowered byte by byte, and returned as
    it is when it has no upper-case byte. *)
Definition ToLower (s : string) : string :=
  if allBytes asciiByte s then
    if allBytes (fun c => negb (upperByte c)) s then s
    else mapBytes lowerByte s
  else mapToLower s.

(** [isGenerated] *)
Definition isGenerated (f : file.File) : bool :=
  existsb
    (existsb (fun text =>
                Contains text "DO NOT EDIT"
                || Contains (ToLower text) " generated by "))
    (file.Comments f).

(** The loop over [file.Decls] in [run]. *)
Fixpoint handleDecls (ps : Pass) (decls : list file.Decl)
  : run (list Diagnostic) :=
  match decls with
  | [] => Done []
  | file.FuncDecl d :: r =>
      ds <- funcDecl ps d ;;
      rs <- handleDecls ps r ;;
      Done (ds ++ rs)%list
  | file.GenDecl :: r => handleDecls ps r
  end.

(** The function [run] hands to [insp.Preorder], on one file. *)
Definition handleFile (ps : Pass) (f : file.File) : run (list Diagnostic) :=
  if isGenerated f || isTest f then Done [] else handleDecls ps (file.Decls f).

(** [run] over the files of the pass, in the order the inspector visits
    them: the diagnostics reported. *)
Fixpoint runFiles (ps : Pass) (files : list file.File)
  : run (list Diagnostic) :=
  match files with
  | [] => Done []
  | f :: r =>
      ds <- handleFile ps f ;;
      rs <- runFiles ps r ;;
      Done (ds ++ rs)%list
  end.

Definition run_ (ps : Pass) (files : list file.File) : run (list Diagnostic) :=
  if IsMainLike ps then Done [] else runFiles ps files.

(** What [f] reports at [x]; nothing where it panics. *)
Definition outputs (f : ast.Node -> run (list Diagnostic)) (x : ast.Node)
  : list Diagnostic :=
  match f x with
  | Done d => d
  | Panic => []
  end.

(** The [*prefixError] that [handleFuncBody] hands to [report] at [node],
    if any: for a call of [errors.New] or [fmt.Errorf] whose first argument
    is a string constant and whose message fails the prefix check. *)
Definition offence (ps : Pass) (parentFunc : ast.FuncDecl) (node : ast.Node)
  : option (Z * prefixError) :=
  match node with
  | ast.CallExpr pos _ (arg0 :: rest) =>
      if (CallName ps node =? "errors.New") || (CallName ps node =? "fmt.Errorf")
      then
        match constantValueString ps arg0 with
        | Some format =>
            match check (Pkg ps) parentFunc
                    (Sprintf format
                       (map (fun e => {| pass := ps; expr := e |}) rest)) with
            | Done (Some err) => Some (pos, err)
            | _ => None
            end
        | None => None
        end
      else None
  | _ => None
  end.

(** ** The walker never panics *)

(** Drops the variables of the section that the goal does not mention. *)
Ltac narrow :=
  try clear mapToLower; try clear IsMainLike; try clear Quote;
  try clear Sprintf; try clear CallName; try clear unicodeUpper;
  try clear unicodeDigit; try clear unicodeLetter.

Ltac case_if :=
  match goal with
  | |- context [if ?b then _ else _] => destruct b eqn:?
  end.

Lemma Node_nested_ind (P : ast.Node -> Prop) :
  (forall pos f args, P f -> Forall P args -> P (ast.CallExpr pos f args)) ->
  (forall pos children, Forall P children -> P (ast.Other pos children)) ->
  forall n, P n.
Proof.
  intros HC HO. fix IH 1. intros [pos f args | pos children].
  - apply HC; [apply IH |]. induction args; constructor; [apply IH | assumption].
  - apply HO. induction children; constructor; [apply IH | assumption].
Qed.

Lemma match_returns (loc : location) (p : types.Package)
  (decl : ast.FuncDecl) (name : string) :
  ast.Name decl = Some name -> exists r, match_ loc p decl = Done r.
Proof.
  intros N. unfold match_, mismatch. rewrite N. change isDebug with false.
  destruct (recvString decl). repeat case_if; eexists; reflexivity.
Qed.

Lemma checkPrefix_returns (p : types.Package) (decl : ast.FuncDecl)
  (name msg : string) :
  ast.Name decl = Some name -> exists r, check p decl msg = Done r.
Proof.
  intros N. unfold checkPrefix. destruct (parse msg) as [loc err].
  destruct (match_returns loc p decl name N) as [r ->].
  change isDebug with false.
  destruct err as [[] |]; cbn [bind]; try (eexists; reflexivity).
  destruct r; eexists; reflexivity.
Qed.

(** [handleFuncBody] at a node: the report for the node's offence. *)
Lemma handleFuncBody_offence (ps : Pass) (decl : ast.FuncDecl)
  (name : string) (node : ast.Node) :
  ast.Name decl = Some name ->
  funcBody ps decl node =
  Done match offence ps decl node with
       | Some (pos, err) => [reportAt ps decl pos err]
       | None => []
       end.
Proof.
  intros N. unfold handleFuncBody, offence.
  destruct node as [pos f [| arg0 rest] | pos children]; try reflexivity.
  case_if; [| reflexivity].
  destruct (constantValueString ps arg0) as [format |]; [| reflexivity].
  destruct (checkPrefix_returns (Pkg ps) decl name
              (Sprintf format (map (fun e => {| pass := ps; expr := e |}) rest))
              N) as [r ->].
  now destruct r.
Qed.

(** [ast.Inspect] with a function that does not panic reports what the
    function reports at the nodes in preorder. *)
Lemma Inspect_preorder (f : ast.Node -> run (list Diagnostic)) :
  (forall x, exists d, f x = Done d) ->
  forall n, Inspect f n = Done (flat_map (outputs f) (preorder n)).
Proof.
  intros T.
  assert (O : forall x, f x = Done (outputs f x)).
  { intros x. unfold outputs. destruct (T x) as [d ->]. reflexivity. }
  apply Node_nested_ind.
  - intros pos fn args Hf Ha. cbn [Inspect preorder flat_map].
    rewrite O, Hf. cbn [bind]. rewrite flat_map_app.
    induction Ha as [| a l Ha Hl IH]; cbn [flat_map bind].
    + cbn [bind]. now rewrite !app_nil_r.
    + rewrite Ha. cbn [bind].
      match type of IH with
      | (_ <- ?m ;; _) = _ => destruct m as [d2 |]; [| discriminate IH]
      end.
      cbn [bind] in *. injection IH as IH. apply app_inv_head in IH.
      apply app_inv_head in IH. subst d2.
      now rewrite flat_map_app.
  - intros pos children Hc. cbn [Inspect preorder flat_map].
    rewrite O. cbn [bind].
    induction Hc as [| a l Ha Hl IH]; cbn [flat_map bind].
    + now rewrite app_nil_r.
    + rewrite Ha. cbn [bind].
      match type of IH with
      | (_ <- ?m ;; _) = _ => destruct m as [d2 |]; [| discriminate IH]
      end.
      cbn [bind] in *. injection IH as IH. apply app_inv_head in IH.
      subst d2. now rewrite flat_map_app.
Qed.

(** The diagnostics of a declaration: nothing unless it has a name and a
    body, is exported and returns an error last; then the reports of the
    offences at the nodes of the body, in preorder. *)
Lemma handleFuncDecl_reports (ps : Pass) (decl : ast.FuncDecl) :
  funcDecl ps decl =
  Done match ast.Name decl, ast.Body decl with
       | Some name, Some body =>
           if exported name && isReturnsError decl then
             flat_map (fun n => match offence ps decl n with
                                | Some (pos, err) => [reportAt ps decl pos err]
                                | None => []
                                end) (preorder body)
           else []
       | _, _ => []
       end.
Proof.
  unfold handleFuncDecl.
  destruct (ast.Name decl) as [name |] eqn:N; [| reflexivity].
  destruct (ast.Body decl) as [body |]; [| reflexivity].
  destruct (exported name); [| reflexivity].
  destruct (isReturnsError decl); [| reflexivity]. cbn [negb orb andb].
  rewrite Inspect_preorder.
  - f_equal. apply flat_map_ext. intros n. unfold outputs.
    now rewrite (handleFuncBody_offence ps decl name n N).
  - intros x. rewrite (handleFuncBody_offence ps decl name x N).
    eexists; reflexivity.
Qed.

Lemma handleDecls_returns (ps : Pass) (decls : list file.Decl) :
  exists ds, handleDecls ps decls = Done ds.
Proof.
  induction decls as [| [d |] r [rs IH]]; cbn [handleDecls].
  - eexists; reflexivity.
  - rewrite handleFuncDecl_reports, IH. eexists; reflexivity.
  - eexists; exact IH.
Qed.

Lemma runFiles_returns (ps : Pass) (files : list file.File) :
  exists ds, runFiles ps files = Done ds.
Proof.
  induction files as [| f r [rs IH]]; cbn [runFiles].
  - eexists; reflexivity.
  - unfold handleFile. destruct (isGenerated f || isTest f).
    + rewrite IH. eexists; reflexivity.
    + destruct (handleDecls_returns ps (file.Decls f)) as [ds ->].
      rewrite IH. eexists; reflexivity.
Qed.


(** X2: what a declaration is reported for.  A diagnostic is reported for
    a declaration exactly when the declaration is exported and returns an
    error last and its body holds a call of [errors.New] or [fmt.Errorf]
    with a string constant as first argument whose message fails the
    prefix check; the diagnostic stands at the position of that call. *)
Theorem diagnostics_are_offending_calls (ps : Pass) (decl : ast.FuncDecl)
  (ds : list Diagnostic) (d : Diagnostic) :
  funcDecl ps decl = Done ds ->
  (In d ds <->
   exists name body pos fun_ arg0 rest format err,
     ast.Name decl = Some name /\ ast.Body decl = Some body
     /\ exported name = true /\ isReturnsError decl = true
     /\ In (ast.CallExpr pos fun_ (arg0 :: rest)) (preorder body)
     /\ (CallName ps (ast.CallExpr pos fun_ (arg0 :: rest)) = "errors.New"
         \/ CallName ps (ast.CallExpr pos fun_ (arg0 :: rest)) = "fmt.Errorf")
     /\ constantValueString ps arg0 = Some format
     /\ check (Pkg ps) decl
          (Sprintf format (map (fun e => {| pass := ps; expr := e |}) rest)) =
        Done (Some err)
     /\ d = reportAt ps decl pos err).
Proof.
  rewrite handleFuncDecl_reports. intros H. injection H as <-. split.
  - destruct (ast.Name decl) as [name |]; [| contradiction].
    destruct (ast.Body decl) as [body |]; [| contradiction].
    destruct (exported name) eqn:X; [| contradiction].
    destruct (isReturnsError decl) eqn:R; [| contradiction]. cbn [andb].
    intros I. apply in_flat_map in I. destruct I as (n & In_n & I).
    unfold offence in I.
    destruct n as [pos f [| arg0 rest] | pos children]; try contradiction.
    destruct (_ || _) eqn:C; [| contradiction].
    destruct (constantValueString ps arg0) as [format |] eqn:F;
      [| contradiction].
    destruct (check _ _ _) as [[err |] |] eqn:K; try contradiction.
    destruct I as [<- | []].
    exists name, body, pos, f, arg0, rest, format, err.
    repeat split; try assumption; try reflexivity.
    apply orb_true_iff in C. rewrite !String.eqb_eq in C. exact C.
  - intros (name & body & pos & f & arg0 & rest & format & err
            & -> & -> & -> & -> & I & C & F & K & ->).
    cbn [andb]. apply in_flat_map. eexists. split; [exact I |].
    unfold offence. rewrite F, K.
    assert (C' : (CallName ps (ast.CallExpr pos f (arg0 :: rest)) =? "errors.New")
                 || (CallName ps (ast.CallExpr pos f (arg0 :: rest)) =? "fmt.Errorf")
                 = true).
    { apply orb_true_iff. rewrite !String.eqb_eq. exact C. }
    rewrite C'. now left.
Qed.

Lemma flat_map_at_most_one {A B : Type} (f : A -> list B) (p : A -> bool)
  (l : list A) :
  (forall x, (List.length (f x) <= if p x then 1 else 0)%nat) ->
  (List.length (flat_map f l) <= List.length (filter p l))%nat.
Proof.
  intros H. induction l as [| x l IH]; cbn [flat_map filter]; [cbn; lia |].
  rewrite length_app. specialize (H x).
  destruct (p x); cbn [List.length]; lia.
Qed.

(** X3: at most one diagnostic per call expression: a declaration is
    reported no more often than its body holds call expressions, and a
    declaration without a body is never reported. *)
Theorem one_diagnostic_per_call (ps : Pass) (decl : ast.FuncDecl)
  (ds : list Diagnostic) :
  funcDecl ps decl = Done ds ->
  match ast.Body decl with
  | Some body =>
      (List.length ds <= List.length (filter isCall (preorder body)))%nat
  | None => ds = []
  end.
Proof.
  rewrite handleFuncDecl_reports. intros H. injection H as <-.
  destruct (ast.Name decl) as [name |]; destruct (ast.Body decl) as [body |];
    try reflexivity; try (cbn; lia).
  case_if; [| cbn; lia].
  apply flat_map_at_most_one. intros x. unfold offence, isCall.
  destruct x as [pos f [| a r] | pos c]; cbn [List.length]; try lia.
  repeat case_if; cbn [List.length]; try lia.
  destruct (constantValueString ps a); cbn [List.length]; try lia.
  destruct (check _ _ _) as [[e |] |]; cbn [List.length]; lia.
Qed.

(** ** The kinds and texts of the diagnostics *)

Lemma match_kinds (loc : location) (p : types.Package) (decl : ast.FuncDecl)
  (e : prefixError) :
  match_ loc p decl = Done (Some e) ->
  parsedPrefix e = loc
  /\ In (errType e)
        [errNoPrefix; errPackageMismatch; errFuncNotFound; errMethodNotFound;
         errRecieverNotFound; errNoPointer].
Proof.
  narrow.
  unfold match_, mismatch. change isDebug with false.
  destruct (recvString decl) as [rn rp].
  repeat case_if; try destruct (ast.Name decl); repeat case_if;
    intros H; try discriminate H; injection H as <-;
    (split; [reflexivity | cbn; tauto]).
Qed.

Lemma checkPrefix_kinds (p : types.Package) (decl : ast.FuncDecl)
  (msg : string) (e : prefixError) :
  check p decl msg = Done (Some e) ->
  In (errType e)
     [errNoPrefix; errInvalidSyntax; errPackageMismatch; errFuncNotFound;
      errMethodNotFound; errRecieverNotFound].
Proof.
  narrow.
  unfold checkPrefix. pose proof (parsePrefix_isRecvPtr unicodeLetter
                                    unicodeDigit msg) as F.
  destruct (parse msg) as [loc err]. cbn [fst] in F.
  assert (M : match_ loc p decl = Done (Some e) ->
              In (errType e)
                 [errNoPrefix; errInvalidSyntax; errPackageMismatch;
                  errFuncNotFound; errMethodNotFound; errRecieverNotFound]).
  { intros H. destruct (match_kinds _ _ _ _ H) as [_ K].
    cbn [In] in K. destruct K as [K | [K | [K | [K | [K | [K | []]]]]]];
      try (rewrite <- K; cbn; tauto).
    symmetry in K. pose proof (match_NoPointer_marker _ _ _ _ H K). congruence. }
  change isDebug with false.
  destruct err as [[] |]; try exact M.
  - intros H. injection H as <-. cbn; tauto.
  - destruct (match_ loc p decl) as [[e' |] |]; cbn [bind]; intros H;
      try discriminate H; injection H as <-; cbn; tauto.
Qed.

(** X4: the text of every diagnostic is the fixed lead-in followed either
    by the recommended prefixes or by the text of one of five mismatch
    kinds; the kinds [errPrefixDuplicate] and [errNoPointer] are never
    reported. *)
Theorem diagnostic_texts (ps : Pass) (decl : ast.FuncDecl)
  (ds : list Diagnostic) (d : Diagnostic) :
  funcDecl ps decl = Done ds -> In d ds ->
  Message d = diagnosticMessage ++ ": " ++ recommendations ps decl
  \/ In (Message d)
        (map (fun text => diagnosticMessage ++ ": " ++ text)
             ["syntax is wrong"; "package name mismatch";
              "neither func nor struct has been found"; "method not found";
              "reciever not found"]).
Proof.
  narrow.
  rewrite handleFuncDecl_reports. intros H. injection H as <-.
  destruct (ast.Name decl) as [name |]; [| contradiction].
  destruct (ast.Body decl) as [body |]; [| contradiction].
  case_if; [| contradiction].
  intros I. apply in_flat_map in I. destruct I as (n & _ & I).
  destruct (offence ps decl n) as [[pos err] |] eqn:O; [| contradiction].
  destruct I as [<- | []].
  assert (K : exists msg, check (Pkg ps) decl msg = Done (Some err)).
  { unfold offence in O. destruct n as [q f [| a r] | q c]; try discriminate O.
    destruct (_ || _); [| discriminate O].
    destruct (constantValueString ps a); [| discriminate O].
    destruct (check _ _ _) as [[e |] |] eqn:K; try discriminate O.
    injection O as _ <-. eexists; exact K. }
  destruct K as [msg K]. apply checkPrefix_kinds in K.
  unfold report. cbn [Message In map] in *.
  destruct (errType err); cbn [Error]; intuition discriminate.
Qed.

(** ** The matcher with both tokens set *)

(** X5: with the package check passed and both tokens set, a wrong
    function token under the right receiver is [errMethodNotFound] with the
    function names as [got] and [expect]; a wrong receiver token with the
    right function token is [errRecieverNotFound] with the receiver names;
    and when both are wrong it is [errMethodNotFound] with the dotted
    pairs. *)
Theorem both_tokens_mismatch (loc : location) (p : types.Package)
  (decl : ast.FuncDecl) (functionName : string) :
  pkg loc <> "" -> strings.HasSuffix (types.Path p) (pkg loc) = true ->
  recv loc <> "" -> fn loc <> "" ->
  ast.Name decl = Some functionName ->
  let recieverName := fst (recvString decl) in
  (recv loc = recieverName -> fn loc <> functionName ->
   match_ loc p decl =
   Done (Some {| errType := errMethodNotFound; got := fn loc;
                 expect := functionName; parsedPrefix := loc |}))
  /\ (recv loc <> recieverName -> fn loc = functionName ->
      match_ loc p decl =
      Done (Some {| errType := errRecieverNotFound; got := recv loc;
                    expect := recieverName; parsedPrefix := loc |}))
  /\ (recv loc <> recieverName -> fn loc <> functionName ->
      match_ loc p decl =
      Done (Some {| errType := errMethodNotFound;
                    got := recv loc ++ "." ++ fn loc;
                    expect := recieverName ++ "." ++ functionName;
                    parsedPrefix := loc |})).
Proof.
  intros Hp Hs Hr Hf Hn rn. subst rn. unfold match_, mismatch.
  apply String.eqb_neq in Hp, Hr, Hf. rewrite Hp, Hs, Hn, Hr, Hf.
  destruct (recvString decl) as [rn rp]. cbn [negb andb fst].
  repeat split.
  - intros E N. apply String.eqb_neq in N. apply String.eqb_eq in E.
    now rewrite E, N.
  - intros N E. apply String.eqb_neq in N. apply String.eqb_eq in E.
    now rewrite E, N.
  - intros N1 N2. apply String.eqb_neq in N1, N2. now rewrite N1, N2.
Qed.

(** ** Edge cases of the matcher *)



(** X7: a message whose package token is empty (it starts with the
    separator or with a dot) is always reported, and always as
    [errNoPrefix]. *)
Theorem empty_package_token_NoPrefix (p : types.Package)
  (decl : ast.FuncDecl) (msg : string) :
  pkg (fst (parse msg)) = "" ->
  exists e, check p decl msg = Done (Some e) /\ errType e = errNoPrefix.
Proof.
  unfold checkPrefix. destruct (parse msg) as [loc err]. cbn [fst]. intros E.
  assert (M : match_ loc p decl =
              mismatch errNoPrefix (pkg loc) (types.Name p) loc)
    by (unfold match_; now rewrite E).
  rewrite M. change isDebug with false. unfold mismatch.
  destruct err as [[] |]; cbn [bind]; eexists; split; reflexivity.
Qed.

(** The parser answers nil, [errNoPrefix] or [errInvalidSyntax]. *)
Lemma parsePrefix_error_kinds (msg : string) :
  snd (parse msg) = None \/ snd (parse msg) = Some errNoPrefix
  \/ snd (parse msg) = Some errInvalidSyntax.
Proof.
  narrow.
  unfold parsePrefix. case_if; [cbn; tauto |].
  destruct (List.length _) as [|[|[|[|n]]]]; try (cbn; tauto);
    rewrite checkTokens_spec by reflexivity; cbn [snd]; case_if; tauto.
Qed.

(** X8: what an accepted message looks like.  When the check reports
    nothing, the message parsed without an error, its package token is not
    empty and ends the import path, a function token that stands alone is
    the function's name or the receiver's type name, and when both tokens
    are set they are the receiver's type name and the function's name. *)
Theorem accepted_message (p : types.Package) (decl : ast.FuncDecl)
  (msg : string) (loc : location) (err : option errorKind) :
  parse msg = (loc, err) -> check p decl msg = Done None ->
  err = None
  /\ pkg loc <> ""
  /\ (exists r, types.Path p = r ++ pkg loc)
  /\ (recv loc = "" -> fn loc <> "" ->
      Some (fn loc) = ast.Name decl \/ fn loc = fst (recvString decl))
  /\ (recv loc <> "" -> fn loc <> "" ->
      recv loc = fst (recvString decl) /\ Some (fn loc) = ast.Name decl).
Proof.
  intros P. unfold checkPrefix. rewrite P. change isDebug with false.
  assert (M : match_ loc p decl = Done None ->
              pkg loc <> ""
              /\ (exists r, types.Path p = r ++ pkg loc)
              /\ (recv loc = "" -> fn loc <> "" ->
                  Some (fn loc) = ast.Name decl
                  \/ fn loc = fst (recvString decl))
              /\ (recv loc <> "" -> fn loc <> "" ->
                  recv loc = fst (recvString decl)
                  /\ Some (fn loc) = ast.Name decl)).
  { unfold match_, mismatch. change isDebug with false.
    destruct (String.eqb_spec (pkg loc) "") as [| Np]; [discriminate |].
    destruct (strings.HasSuffix (types.Path p) (pkg loc)) eqn:S;
      [| discriminate].
    apply HasSuffix_iff in S. cbn [negb].
    destruct (recvString decl) as [rn rp]. cbn [fst].
    destruct (ast.Name decl) as [name |]; [| discriminate].
    destruct (String.eqb_spec (recv loc) "") as [Er | Nr];
      destruct (String.eqb_spec (fn loc) "") as [Ef | Nf];
      cbn [andb negb]; intros H;
      (split; [exact Np | split; [exact S | split]]);
      try (intros; congruence).
    - intros _ _. revert H.
      destruct (String.eqb_spec (fn loc) rn) as [-> | _]; [now right |].
      destruct (String.eqb_spec (fn loc) name) as [-> | _]; [now left |].
      discriminate.
    - intros _ _. revert H.
      destruct (String.eqb_spec (recv loc) rn) as [-> | _];
        destruct (String.eqb_spec (fn loc) name) as [-> | _];
        cbn [andb negb]; try discriminate.
      now split. }
  pose proof (parsePrefix_error_kinds msg) as K. rewrite P in K. cbn [snd] in K.
  destruct K as [-> | [-> | ->]]; intros H.
  - split; [reflexivity | now apply M].
  - discriminate H.
  - destruct (match_ loc p decl) as [[e |] |]; discriminate H.
Qed.

(** ** Receivers that are not simple named types *)

(** X9: a method whose receiver type is neither a named type nor a
    pointer to one (a generic or qualified receiver, say) gets no
    recommended prefix at all, so its [errNoPrefix] diagnostic lists
    nothing, and the matcher treats it exactly like the free function of
    the same name. *)
Theorem receiver_not_simple (ps : Pass) (decl : ast.FuncDecl)
  (f0 : ast.Field) (l : list ast.Field) :
  ast.Recv decl = Some (f0 :: l) -> simpleReceiver (ast.Typ f0) = false ->
  errorPrefixes (Pkg ps) decl = []
  /\ recommendations ps decl =
       "Consider starting message with one of the following strings: "
  /\ (forall loc p, match_ loc p decl = match_ loc p (withoutReceiver decl)).
Proof.
  intros R S.
  assert (E : forall p, errorPrefixes p decl = []).
  { intros p. unfold errorPrefixes. rewrite R.
    destruct (ast.Name decl); [| reflexivity].
    destruct (ast.Typ f0) as [| [] | | | | |]; try reflexivity; discriminate S. }
  assert (V : recvString decl = ("", false)).
  { unfold recvString. rewrite R.
    destruct (ast.Typ f0) as [| [] | | | | |]; try reflexivity; discriminate S. }
  split; [apply E | split].
  - unfold generatePrefixRecomendations. now rewrite E.
  - intros loc p. unfold match_. rewrite V. reflexivity.
Qed.

(** ** The shape of the recommended prefixes *)

(** X10: every recommended prefix starts with the package's name and ends
    with the separator [": "]; and the recommender returns nothing, or the
    bare package prefix followed by one, two or three more. *)
Theorem recommended_prefix_shape (p : types.Package) (decl : ast.FuncDecl) :
  (forall q, In q (errorPrefixes p decl) ->
     exists mid, q = types.Name p ++ mid ++ ": ")
  /\ (errorPrefixes p decl = []
      \/ exists r, errorPrefixes p decl = (types.Name p ++ ": ") :: r
                   /\ (1 <= List.length r <= 3)%nat).
Proof.
  unfold errorPrefixes.
  destruct (ast.Name decl) as [name |]; [| split; [contradiction | now left]].
  assert (F : forall x, (types.Name p ++ "." ++ x ++ ": ") =
                        types.Name p ++ ("." ++ x) ++ ": ")
    by (intros x; now rewrite !append_assoc).
  destruct (ast.Recv decl) as [[| f0 l] |].
  - split; [| right; eexists; split; [reflexivity | cbn; lia]].
    intros q [<- | [<- | []]]; [now exists "" | eexists; apply F].
  - destruct (ast.Typ f0) as [rname | [ident | | | | | |] | | | | |];
      try (split; [contradiction | now left]).
    + split; [| right; eexists; split; [reflexivity | cbn; lia]].
      intros q [<- | [<- | [<- | []]]];
        [now exists "" | | eexists; apply F].
      exists ("." ++ rname ++ "." ++ name). now rewrite !append_assoc.
    + split; [| right; eexists; split; [reflexivity | cbn; lia]].
      intros q [<- | [<- | [<- | [<- | []]]]];
        [now exists "" | | | eexists; apply F].
      * exists ("." ++ ident ++ "." ++ name). now rewrite !append_assoc.
      * exists (".(*" ++ ident ++ ")." ++ name). now rewrite !append_assoc.
  - split; [| right; eexists; split; [reflexivity | cbn; lia]].
    intros q [<- | [<- | []]]; [now exists "" | eexists; apply F].
Qed.

(** ** Functions that return an error *)

(** X11: [isReturnsError] holds exactly when the last listed result type
    is the identifier [error]; a qualified or parenthesised [error], or an
    [error] that is not last, does not count. *)
Theorem isReturnsError_iff (decl : ast.FuncDecl) :
  isReturnsError decl = true <->
  exists pre, declaredResults decl = (pre ++ [ast.Ident "error"])%list.
Proof.
  split; [apply isReturnsError_last |].
  unfold isReturnsError, declaredResults. intros [pre E].
  destruct (ast.Type_ decl) as [ft |]; [| now destruct pre].
  destruct (ast.Results ft) as [fields |]; [| now destruct pre].
  apply map_eq_app in E. destruct E as (l1 & l2 & -> & _ & E2).
  apply map_eq_cons in E2. destruct E2 as (f & t & -> & T & E3).
  apply map_eq_nil in E3. subst t.
  rewrite rev_app_distr. cbn [rev app]. now rewrite T.
Qed.

(** ** What the parser reads *)

(** X12: the parser reads a message up to its first separator only: two
    messages that agree up to there get the same location, the same error
    and the same report. *)
Theorem text_after_separator_ignored (text rest rest' : string)
  (p : types.Package) (decl : ast.FuncDecl) :
  ~ contains text ": " ->
  parse (text ++ ": " ++ rest) = parse (text ++ ": " ++ rest')
  /\ check p decl (text ++ ": " ++ rest) = check p decl (text ++ ": " ++ rest').
Proof.
  intros H.
  assert (E : parse (text ++ ": " ++ rest) = parse (text ++ ": " ++ rest'))
    by now rewrite !parsePrefix_components.
  split; [exact E |]. unfold checkPrefix. now rewrite E.
Qed.

Lemma dotComponents_no_dot (s : string) :
  Forall (fun c => allBytes notDot c = true) (dotComponents s).
Proof.
  induction s as [| c t IH]; cbn [dotComponents].
  - now repeat constructor.
  - destruct (Ascii.eqb_spec c ".") as [-> | N].
    + constructor; [reflexivity | exact IH].
    + pose proof (dotComponents_length t) as L.
      destruct (dotComponents t) as [| h r]; [cbn in L; lia |].
      inversion IH as [| ? ? Hh Hr]; subst. constructor; [| exact Hr].
      cbn [allBytes]. rewrite Hh. unfold notDot.
      apply Ascii.eqb_neq in N. now rewrite N.
Qed.

(** The first dot component starts the text, and every dot component is a
    piece of it. *)
Lemma dotComponents_pieces (s : string) :
  (exists h r b, dotComponents s = h :: r /\ s = h ++ b)
  /\ Forall (fun c => exists a b, s = a ++ c ++ b) (dotComponents s).
Proof.
  induction s as [| c t [(h & r & b & E & Hb) IH]]; cbn [dotComponents].
  - split; [now exists "", [], "" |].
    constructor; [now exists "", "" | constructor].
  - assert (T : Forall (fun x => exists a b, String c t = a ++ x ++ b) r).
    { rewrite E in IH. inversion IH as [| ? ? _ Hr]; subst.
      eapply Forall_impl; [| exact Hr]. cbn beta.
      intros x (a & b' & Ex). exists (String c a), b'. cbn [append].
      now rewrite <- Ex. }
    destruct (c =? ".")%char.
    + split; [now exists "", (dotComponents t), (String c t) |].
      constructor; [now exists "", (String c t) |].
      rewrite E. constructor; [| exact T].
      exists (String c ""), b. cbn [append]. now rewrite <- Hb.
    + rewrite E. split.
      * exists (String c h), r, b. split; [reflexivity |].
        cbn [append]. now rewrite <- Hb.
      * constructor; [| exact T].
        exists "", b. cbn [append]. now rewrite <- Hb.
Qed.

(** The tokens of a parsed location are empty or dot components of a text
    without a separator. *)
Lemma parsePrefix_tokens (msg : string) :
  exists text,
    ~ contains text ": "
    /\ Forall (fun tok => tok = "" \/ In tok (dotComponents text))
         [pkg (fst (parse msg)); recv (fst (parse msg)); fn (fst (parse msg))].
Proof.
  destruct (first_separator msg) as [N | (text & rest & -> & N)].
  - exists "". split; [now apply no_separator_in |].
    rewrite (parsePrefix_no_separator _ _ _ N). cbn [fst pkg recv fn noLocation].
    repeat apply Forall_cons; try apply Forall_nil; now left.
  - exists text. split; [exact N |].
    rewrite (parsePrefix_components _ _ _ _ N).
    destruct (dotComponents text) as [| a [| b [| c [| d l]]]];
      cbn [fst pkg recv fn mkLocation noLocation];
      repeat apply Forall_cons; try apply Forall_nil; cbn [In]; auto 8.
Qed.

(** X13: no token of a parsed location holds a dot or the separator
    [": "], whatever the message and whether or not the parser answers an
    error. *)
Theorem tokens_hold_no_dot_no_separator (msg : string) :
  Forall (fun tok => allBytes notDot tok = true /\ ~ contains tok ": ")
    [pkg (fst (parse msg)); recv (fst (parse msg)); fn (fst (parse msg))].
Proof.
  destruct (parsePrefix_tokens msg) as (text & N & F).
  eapply Forall_impl; [| exact F]. cbn beta. intros tok [-> | I].
  - split; [reflexivity | now apply no_separator_in].
  - split.
    + pose proof (dotComponents_no_dot text) as D.
      rewrite Forall_forall in D. now apply D.
    + destruct (dotComponents_pieces text) as [_ D].
      rewrite Forall_forall in D. destruct (D _ I) as (a & b & E).
      intros (a' & b' & C). apply N. rewrite E, C.
      exists (a ++ a'), (b' ++ b). now rewrite !append_assoc.
Qed.

(** X14: the parser answers no error exactly for a message that has a
    separator, at most three dot components before the first one, and
    after the package token only tokens that are empty or identifiers. *)
Theorem parsed_without_error_iff (msg : string) :
  snd (parse msg) = None <->
  exists text rest,
    msg = text ++ ": " ++ rest /\ ~ contains text ": "
    /\ (List.length (dotComponents text) <= 3)%nat
    /\ Forall (fun tok => tokenOk tok = true) (tl (dotComponents text)).
Proof.
  split.
  - destruct (first_separator msg) as [N | (text & rest & -> & N)].
    + rewrite (parsePrefix_no_separator _ _ _ N). discriminate.
    + rewrite (parsePrefix_components _ _ _ _ N). intros H.
      exists text, rest. split; [reflexivity | split; [exact N |]].
      destruct (dotComponents text) as [| a [| b [| c [| d l]]]];
        cbn [snd tl List.length] in *; try discriminate H.
      * split; [lia | constructor].
      * destruct (tokenOk b) eqn:B; [| discriminate H].
        split; [lia | now repeat constructor].
      * destruct (tokenOk b) eqn:B; [| discriminate H].
        destruct (tokenOk c) eqn:C; [| discriminate H].
        split; [lia | now repeat constructor].
  - intros (text & rest & -> & N & L & F).
    rewrite (parsePrefix_components _ _ _ _ N).
    pose proof (dotComponents_length text) as G.
    destruct (dotComponents text) as [| a [| b [| c [| d l]]]];
      cbn [snd tl List.length] in *; try lia; try reflexivity.
    + inversion F; subst. now rewrite H1.
    + inversion F as [| ? ? Hb F']; subst. inversion F'; subst.
      now rewrite Hb, H1.
Qed.

(** ** Generated files and test files *)

Lemma Contains_present (s sub : string) :
  contains s sub -> Contains s sub = true.
Proof. intros C. apply Z.leb_le. now apply Index_present. Qed.

Lemma mapBytes_app (f : ascii -> ascii) (a b : string) :
  mapBytes f (a ++ b) = mapBytes f a ++ mapBytes f b.
Proof. induction a as [| c a IH]; cbn [append mapBytes]; congruence. Qed.

Lemma mapBytes_lower_fixed (s : string) :
  allBytes (fun c => negb (upperByte c)) s = true -> mapBytes lowerByte s = s.
Proof.
  induction s as [| c s IH]; cbn [allBytes mapBytes]; [reflexivity |].
  intros H. apply andb_true_iff in H. destruct H as [Hc Hs].
  unfold lowerByte at 1. apply negb_true_iff in Hc. now rewrite Hc, IH.
Qed.

(** [strings.ToLower] of ASCII text lowers every byte. *)
Lemma ToLower_ascii (s : string) :
  allBytes asciiByte s = true -> ToLower s = mapBytes lowerByte s.
Proof.
  intros A. unfold ToLower. rewrite A.
  destruct (allBytes (fun c => negb (upperByte c)) s) eqn:U; [| reflexivity].
  symmetry. now apply mapBytes_lower_fixed.
Qed.

Lemma isGenerated_marker (f : file.File) (group : list string)
  (text : string) :
  In group (file.Comments f) -> In text group ->
  Contains text "DO NOT EDIT" || Contains (ToLower text) " generated by " = true ->
  isGenerated f = true.
Proof.
  intros G T H. unfold isGenerated.
  apply existsb_exists. exists group. split; [exact G |].
  apply existsb_exists. exists text. split; [exact T | exact H].
Qed.

(** X15: a file is taken for generated when one of its comments holds
    ["DO NOT EDIT"] (in exactly this spelling), or is ASCII text that holds
    [" generated by "] in any mix of upper and lower case. *)
Theorem generated_markers (f : file.File) (group : list string)
  (text : string) :
  In group (file.Comments f) -> In text group ->
  contains text "DO NOT EDIT"
  \/ (allBytes asciiByte text = true
      /\ exists a m b, text = a ++ m ++ b
                       /\ mapBytes lowerByte m = " generated by ") ->
  isGenerated f = true.
Proof.
  intros G T H. apply (isGenerated_marker f group text G T).
  apply orb_true_iff. destruct H as [C | (A & a & m & b & E & M)].
  - left. now apply Contains_present.
  - right. rewrite (ToLower_ascii _ A). apply Contains_present.
    exists (mapBytes lowerByte a), (mapBytes lowerByte b).
    now rewrite E, !mapBytes_app, M.
Qed.

(** ** [run] over several files *)

Lemma runFiles_app (ps : Pass) (a b : list file.File)
  (da db : list Diagnostic) :
  runFiles ps a = Done da -> runFiles ps b = Done db ->
  runFiles ps (a ++ b) = Done (da ++ db)%list.
Proof.
  revert da. induction a as [| f a IH]; cbn [runFiles app]; intros da Ha Hb.
  - injection Ha as <-. exact Hb.
  - destruct (handleFile ps f) as [df |]; [| discriminate Ha].
    cbn [bind] in *.
    destruct (runFiles ps a) as [dr |]; [| discriminate Ha].
    cbn [bind] in Ha. injection Ha as <-.
    rewrite (IH dr eq_refl Hb). cbn [bind]. now rewrite app_assoc.
Qed.

Lemma runFiles_skip (ps : Pass) (before after : list file.File)
  (f : file.File) :
  isGenerated f || isTest f = true ->
  runFiles ps (before ++ f :: after) = runFiles ps (before ++ after).
Proof.
  intros S.
  destruct (runFiles_returns ps before) as [db Hb].
  destruct (runFiles_returns ps after) as [da Ha].
  rewrite (runFiles_app ps before after db da Hb Ha).
  apply runFiles_app; [exact Hb |].
  cbn [runFiles]. unfold handleFile. rewrite S, Ha. reflexivity.
Qed.

(** X16: the files of a pass are checked independently and in order: the
    diagnostics of [run] over two lists of files, one after the other, are
    the diagnostics for the first list followed by those for the second. *)
Theorem run_files_independent (ps : Pass) (a b : list file.File)
  (da db : list Diagnostic) :
  run_ ps a = Done da -> run_ ps b = Done db ->
  run_ ps (a ++ b) = Done (da ++ db)%list.
Proof.
  unfold run_. destruct (IsMainLike ps).
  - intros H1 H2. injection H1 as <-. injection H2 as <-. reflexivity.
  - apply runFiles_app.
Qed.

(** X17: a generated file and a test file contribute nothing: with a
    file that has a ["DO NOT EDIT"] comment, or whose name in the file set
    ends with ["_test.go"], among the files of the pass, [run] reports what
    it reports without that file; and for a main-like package it reports
    nothing at all. *)
Theorem run_skips_files (ps : Pass) (before after : list file.File)
  (f : file.File) :
  (exists group text, In group (file.Comments f) /\ In text group
                      /\ contains text "DO NOT EDIT")
  \/ (exists stem, file.FsetName f = Some (stem ++ "_test.go")) ->
  run_ ps (before ++ f :: after) = run_ ps (before ++ after)
  /\ (IsMainLike ps = true -> run_ ps (before ++ f :: after) = Done []).
Proof.
  intros H. unfold run_. split; [| now intros ->].
  destruct (IsMainLike ps); [reflexivity |].
  apply runFiles_skip. apply orb_true_iff.
  destruct H as [(group & text & G & T & C) | (stem & E)].
  - left. apply (isGenerated_marker f group text G T).
    now rewrite (Contains_present _ _ C).
  - right. unfold isTest. rewrite E. apply HasSuffix_iff. now exists stem.
Qed.

(** ** [exprString] *)

Lemma Expr_nested_ind (P : expr.Expr -> Prop) :
  (forall v, P (expr.BasicLit v)) ->
  (forall n, P (expr.Ident n)) ->
  (forall x sel, P x -> P (expr.SelectorExpr x sel)) ->
  (forall x op y, P x -> P y -> P (expr.BinaryExpr x op y)) ->
  (forall op x, P x -> P (expr.UnaryExpr op x)) ->
  (forall f args, P f -> Forall P args -> P (expr.CallExpr f args)) ->
  (forall x i, P x -> P i -> P (expr.IndexExpr x i)) ->
  (forall x bounds, P x -> Forall P bounds -> P (expr.SliceExpr x bounds)) ->
  (forall children, Forall P children -> P (expr.Other children)) ->
  forall e, P e.
Proof.
  intros H1 H2 H3 H4 H5 H6 H7 H8 H9. fix IH 1.
  assert (L : forall l, Forall P l).
  { fix IHl 1. intros [| x l]; constructor; [apply IH | apply IHl]. }
  intros [v | n | x sel | x op y | op x | f args | x i | x bounds | children].
  - apply H1.
  - apply H2.
  - apply H3, IH.
  - apply H4; apply IH.
  - apply H5, IH.
  - apply H6; [apply IH | apply L].
  - apply H7; apply IH.
  - apply H8; [apply IH | apply L].
  - apply H9, L.
Qed.

Lemma exprString_beyond (e : expr.Expr) (d : Z) :
  (2 < d)%Z -> exprString e d = "?".
Proof.
  intros H. destruct e; cbn [exprString];
    destruct (Z.gtb_spec d 2); try reflexivity; lia.
Qed.

(** What lies [k] levels down or deeper, with [k] the levels left to the
    depth cap, has no part in the text. *)
Lemma exprString_prune_levels (e : expr.Expr) :
  forall (k : nat) (d : Z), Z.of_nat k = (3 - d)%Z ->
  exprString e d = exprString (prune k e) d.
Proof.
  induction e as [v | n | x sel IHx | x op y IHx IHy | op x IHx
                  | f args IHf IHa | x i IHx _ | x bounds IHx _ | children _]
    using Expr_nested_ind; intros k d K.
  all: destruct k as [| k];
    [rewrite !exprString_beyond by lia; reflexivity |].
  all: assert (K' : Z.of_nat k = (3 - (d + 1))%Z) by lia.
  all: cbn [prune exprString]; try reflexivity.
  - now rewrite (IHx k (d + 1)%Z K').
  - now rewrite (IHx k (d + 1)%Z K'), (IHy k (d + 1)%Z K').
  - now rewrite (IHx k (d + 1)%Z K').
  - rewrite (IHf k (d + 1)%Z K'). rewrite map_map.
    replace (map (fun a => exprString a (d + 1)) args)
      with (map (fun a => exprString (prune k a) (d + 1)) args);
      [reflexivity |].
    apply map_ext_Forall. eapply Forall_impl; [| exact IHa]. cbn beta.
    intros a Ha. symmetry. now apply Ha.
  - now rewrite (IHx k (d + 1)%Z K').
  - now rewrite (IHx k (d + 1)%Z K').
Qed.

(** X18: [exprString] reads an expression three levels deep at most: the
    text at depth [d] is the text of the expression with everything at
    level [3 - d] and below cut off, and the index of an index expression
    and the bounds of a slice expression never show. *)
Theorem exprString_reads_to_the_cap (e : expr.Expr) (d : Z) :
  exprString e d = exprString (prune (Z.to_nat (3 - d)) e) d.
Proof.
  destruct (Z.le_gt_cases d 3) as [L | G].
  - apply exprString_prune_levels. lia.
  - rewrite !exprString_beyond by lia. reflexivity.
Qed.

Lemma dotted_not_unknown (a n : string) : (a ++ "." ++ n =? "?") = false.
Proof.
  apply String.eqb_neq. intros E. destruct a as [| c a]; [discriminate E |].
  apply (f_equal length) in E. cbn [append length] in E.
  rewrite length_append in E. cbn in E. lia.
Qed.

(** The text of a selector chain from the text of its base. *)
Lemma exprString_selectors (names : list string) :
  forall (e : expr.Expr) (d : Z),
  names <> [] -> Forall (fun n => n <> "?") names ->
  exprString (selectors e names) d =
  if (d + Z.of_nat (List.length names) >? 2)%Z
     || (exprString e (d + Z.of_nat (List.length names)) =? "?")
  then "?"
  else dotted (exprString e (d + Z.of_nat (List.length names))) names.
Proof.
  induction names as [| n r IH]; intros e d N F; [contradiction |].
  inversion F as [| ? ? Hn Fr]; subst. cbn [selectors List.length].
  replace (d + Z.of_nat (S (List.length r)))%Z
    with (d + Z.of_nat (List.length r) + 1)%Z by lia.
  destruct r as [| n' r'].
  - cbn [selectors List.length dotted]. rewrite Z.add_0_r.
    cbn [exprString]. apply String.eqb_neq in Hn.
    destruct (Z.gtb_spec d 2) as [G | L].
    + destruct (Z.gtb_spec (d + 1) 2); [reflexivity | lia].
    + destruct (Z.gtb_spec (d + 1) 2) as [G' | L'].
      * cbn [orb]. rewrite exprString_beyond by lia. reflexivity.
      * rewrite Hn, orb_false_r. cbn [orb].
        now destruct (exprString e (d + 1) =? "?").
  - rewrite IH by (discriminate || assumption).
    set (m := (d + Z.of_nat (List.length (n' :: r')))%Z).
    cbn [exprString]. apply String.eqb_neq in Hn.
    destruct (Z.gtb_spec m 2) as [G | L].
    + destruct (Z.gtb_spec (m + 1) 2); [reflexivity | lia].
    + cbn [orb]. destruct (Z.gtb_spec (m + 1) 2) as [G' | L'].
      * rewrite exprString_beyond by lia. reflexivity.
      * rewrite Hn, orb_false_r. cbn [orb].
        destruct (exprString e (m + 1) =? "?"); [reflexivity |].
        now rewrite dotted_not_unknown.
Qed.

(** X19: a chain of selectors [x.n1. ... .nk] over an identifier renders
    as the dotted names when the identifier lies within the depth cap, that
    is for [depth + k <= 2], and as ["?"] when it does not: at depth 0,
    [x.a.b] is shown and [x.a.b.c] is not. *)
Theorem selector_chain_text (x : string) (names : list string) (d : Z) :
  x <> "?" -> Forall (fun n => n <> "?") names ->
  exprString (selectors (expr.Ident x) names) d =
  if (d + Z.of_nat (List.length names) <=? 2)%Z then dotted x names else "?".
Proof.
  intros Hx F. destruct names as [| n r].
  - cbn [selectors List.length dotted exprString]. rewrite Z.add_0_r.
    destruct (Z.gtb_spec d 2); destruct (Z.leb_spec d 2); try lia; reflexivity.
  - rewrite exprString_selectors by (discriminate || assumption).
    set (m := (d + Z.of_nat (List.length (n :: r)))%Z).
    cbn [exprString]. apply String.eqb_neq in Hx.
    destruct (Z.gtb_spec m 2); destruct (Z.leb_spec m 2); try lia;
      cbn [orb]; [reflexivity | now rewrite Hx].
Qed.

End checker.

(** ** The further theorems at concrete inputs *)

Lemma diagnostics_are_offending_calls_witness :
  exists body pos fun_ arg0 rest,
    ast.Body aaa.PublicFunction = Some body
    /\ In (ast.CallExpr pos fun_ (arg0 :: rest)) (preorder body)
    /\ aaa.callName aaa.thePass (ast.CallExpr pos fun_ (arg0 :: rest)) =
         "errors.New".
Proof.
  destruct (proj1 (diagnostics_are_offending_calls aaa.noRune aaa.noRune
                     aaa.noRune aaa.callName aaa.sprintf aaa.quote aaa.thePass
                     aaa.PublicFunction _ _ PublicFunction_reported)
                  (or_introl eq_refl))
    as (name & body & pos & f & arg0 & rest & format & err
        & _ & B & _ & _ & I & _ & _ & _ & _).
  exists body, pos, f, arg0, rest. repeat split; [exact B | exact I].
Defined.

Lemma one_diagnostic_per_call_witness :
  (1 <= List.length
          (filter isCall (preorder (ast.Other 500 [aaa.returnNew 520]))))%nat.
Proof.
  exact (one_diagnostic_per_call aaa.noRune aaa.noRune aaa.noRune aaa.callName
           aaa.sprintf aaa.quote aaa.thePass aaa.PublicFunction _
           PublicFunction_reported).
Defined.

Lemma diagnostic_texts_witness :
  exists d, handleFuncDecl aaa.noRune aaa.noRune aaa.noRune aaa.callName
              aaa.sprintf aaa.quote aaa.thePass aaa.PublicFunction = Done [d]
            /\ (Message d =
                  diagnosticMessage ++ ": "
                  ++ generatePrefixRecomendations aaa.quote aaa.thePass
                       aaa.PublicFunction
                \/ In (Message d)
                      (map (fun text => diagnosticMessage ++ ": " ++ text)
                         ["syntax is wrong"; "package name mismatch";
                          "neither func nor struct has been found";
                          "method not found"; "reciever not found"])).
Proof.
  eexists. split; [exact PublicFunction_reported |].
  exact (diagnostic_texts aaa.noRune aaa.noRune aaa.noRune aaa.callName
           aaa.sprintf aaa.quote aaa.thePass aaa.PublicFunction _ _
           PublicFunction_reported (or_introl eq_refl)).
Defined.

Lemma both_tokens_mismatch_witness :
  match_ (mkLocation "aaa" "Struct" "Other") aaa.pkg aaa.Method =
  Done (Some {| errType := errMethodNotFound; got := "Other";
                expect := "Method";
                parsedPrefix := mkLocation "aaa" "Struct" "Other" |}).
Proof.
  pose proof (both_tokens_mismatch (mkLocation "aaa" "Struct" "Other") aaa.pkg
                aaa.Method "Method" ltac:(discriminate) eq_refl
                ltac:(discriminate) ltac:(discriminate) eq_refl) as [H _].
  apply H; [reflexivity | discriminate].
Defined.


Lemma empty_package_token_NoPrefix_witness :
  exists e, checkPrefix aaa.noRune aaa.noRune aaa.pkg aaa.Method ".Method: x" =
              Done (Some e)
            /\ errType e = errNoPrefix.
Proof.
  exact (empty_package_token_NoPrefix aaa.noRune aaa.noRune aaa.pkg aaa.Method
           ".Method: x" eq_refl).
Defined.

Lemma accepted_message_witness :
  "aaa" <> ""
  /\ (exists r, "aaa" = r ++ "aaa")
  /\ ("Struct" <> "" -> "Method" <> "" ->
      "Struct" = fst (recvString aaa.Method)
      /\ Some "Method" = ast.Name aaa.Method).
Proof.
  destruct (accepted_message aaa.noRune aaa.noRune aaa.pkg aaa.Method
              "aaa.Struct.Method: ok" (mkLocation "aaa" "Struct" "Method") None
              eq_refl eq_refl) as (_ & N & S & _ & B).
  exact (conj N (conj S B)).
Defined.

Lemma receiver_not_simple_witness :
  errorPrefixes aaa.pkg files.Add = []
  /\ match_ (mkLocation "aaa" "" "Add") aaa.pkg files.Add = Done None.
Proof.
  destruct (receiver_not_simple aaa.quote aaa.thePass files.Add _ _
              eq_refl eq_refl) as (E & _ & M).
  split; [exact E | rewrite M; reflexivity].
Defined.

Lemma text_after_separator_ignored_witness :
  parsePrefix aaa.noRune aaa.noRune "aaa.Struct.Method: ok" =
  parsePrefix aaa.noRune aaa.noRune "aaa.Struct.Method: failed: again".
Proof.
  apply (text_after_separator_ignored aaa.noRune aaa.noRune
           "aaa.Struct.Method" "ok" "failed: again" aaa.pkg aaa.Method).
  apply no_separator_in. reflexivity.
Defined.

Lemma generated_markers_witness :
  isGenerated files.keep files.generated = true.
Proof.
  apply (generated_markers files.keep files.generated
           ["// Code GENERATED BY a tool."] "// Code GENERATED BY a tool.");
    [now left | now left |].
  right. split; [reflexivity |].
  exists "// Code", " GENERATED BY ", "a tool.". split; reflexivity.
Defined.

Lemma run_files_independent_witness :
  exists da,
    run_ aaa.noRune aaa.noRune aaa.noRune aaa.callName aaa.sprintf aaa.quote
      files.keep files.notMain aaa.thePass [files.source] = Done da
    /\ run_ aaa.noRune aaa.noRune aaa.noRune aaa.callName aaa.sprintf aaa.quote
         files.keep files.notMain aaa.thePass [files.source; files.source] =
       Done (da ++ da)%list
    /\ List.length da = 2%nat.
Proof.
  eexists. split; [reflexivity | split; [| reflexivity]].
  apply (run_files_independent aaa.noRune aaa.noRune aaa.noRune aaa.callName
           aaa.sprintf aaa.quote files.keep files.notMain aaa.thePass
           [files.source] [files.source]); reflexivity.
Defined.

Lemma run_skips_files_witness :
  run_ aaa.noRune aaa.noRune aaa.noRune aaa.callName aaa.sprintf aaa.quote
    files.keep files.notMain aaa.thePass
    [files.source; files.test; files.frozen] =
  run_ aaa.noRune aaa.noRune aaa.noRune aaa.callName aaa.sprintf aaa.quote
    files.keep files.notMain aaa.thePass [files.source].
Proof.
  transitivity
    (run_ aaa.noRune aaa.noRune aaa.noRune aaa.callName aaa.sprintf aaa.quote
       files.keep files.notMain aaa.thePass [files.source; files.frozen]).
  - exact (proj1 (run_skips_files aaa.noRune aaa.noRune aaa.noRune
                    aaa.callName aaa.sprintf aaa.quote files.keep
                    files.notMain aaa.thePass
                    [files.source] [files.frozen] files.test
                    (or_intror (ex_intro _ "aaa" eq_refl)))).
  - exact (proj1 (run_skips_files aaa.noRune aaa.noRune aaa.noRune aaa.callName
                  aaa.sprintf aaa.quote files.keep files.notMain aaa.thePass
                  [files.source] [] files.frozen
                  (or_introl
                     (ex_intro _ ["// Package aaa."; "// DO NOT EDIT."]
                        (ex_intro _ "// DO NOT EDIT."
                           (conj (or_introl eq_refl)
                              (conj (or_intror (or_introl eq_refl))
                                 (ex_intro _ "// "
                                    (ex_intro _ "." eq_refl))))))))).
Defined.

Lemma selector_chain_text_witness :
  exprString (selectors (expr.Ident "x") ["a"; "b"]) 0 = "x.a.b"
  /\ exprString (selectors (expr.Ident "x") ["a"; "b"; "c"]) 0 = "?".
Proof.
  split.
  - apply (selector_chain_text "x" ["a"; "b"] 0); [discriminate |].
    repeat constructor; discriminate.
  - apply (selector_chain_text "x" ["a"; "b"; "c"] 0); [discriminate |].
    repeat constructor; discriminate.
Defined.

Lemma round_trip_free_function_witness :
  Forall (roundTrips (parsePrefix aaa.noRune aaa.noRune) aaa.pkg
            aaa.PublicFunction)
    ["aaa: "; "aaa.PublicFunction: "].
Proof.
  exact (round_trip_free_function aaa.noRune aaa.noRune aaa.pkg
           aaa.PublicFunction "PublicFunction" eq_refl eq_refl eq_refl eq_refl
           (or_introl eq_refl)).
Defined.

Lemma round_trip_value_method_witness :
  Forall (roundTrips (parsePrefix aaa.noRune aaa.noRune) aaa.pkg
            aaa.MethodWithoutPointer)
    ["aaa: "; "aaa.Struct.MethodWithoutPointer: "; "aaa.Struct: "].
Proof.
  exact (round_trip_value_method aaa.noRune aaa.noRune aaa.pkg
           aaa.MethodWithoutPointer "MethodWithoutPointer"
           eq_refl eq_refl eq_refl eq_refl
           (aaa.named "x" (ast.Ident "Struct")) [] "Struct"
           eq_refl eq_refl eq_refl).
Defined.
